(** * The two OpenGL beginner programs, embedded and verified

    The repository holds two near-identical C++ programs,
    [opengl_triangle/src/main.cpp] and
    [opengl_rectangle_using_indexing/src/main.cpp].  Each one opens a GLFW
    window, loads the GL entry points through GLAD, builds a two-stage shader
    program, uploads a fixed vertex buffer (and, for the rectangle, an index
    buffer), and redraws the same geometry until the close flag of the window
    is set.

    The programs are embedded as one monadic [main], parametrised by the
    [Variant] that is built.  The libraries the programs talk to (GLFW, GLAD,
    the GL driver, the console) are not part of the repository: they are
    modelled as operations on a [Machine], and every answer that is up to the
    library or to the user sitting in front of the window is read from a
    [World].  Theorems quantify over all worlds. *)

From Stdlib Require Import ZArith QArith Lqa String Ascii List Bool Lia.
From stdpp Require Import base gmap list strings.
Import ListNotations.

Local Open Scope string_scope.
Local Open Scope Z_scope.

(** ** Symbolic constants of the GLFW and GL headers *)

Inductive Variant := Triangle | Rectangle.

Inductive GLboolean := GL_FALSE | GL_TRUE.

Inductive WindowHint :=
| GLFW_CONTEXT_VERSION_MAJOR
| GLFW_CONTEXT_VERSION_MINOR
| GLFW_OPENGL_PROFILE
| GLFW_OPENGL_FORWARD_COMPAT.

Inductive HintValue :=
| HintInt (n : Z)
| GLFW_OPENGL_CORE_PROFILE
| HintBool (b : GLboolean).

Inductive Key := GLFW_KEY_ESCAPE.
Inductive KeyAction := GLFW_RELEASE | GLFW_PRESS.

Inductive ShaderType := GL_VERTEX_SHADER | GL_FRAGMENT_SHADER.
Inductive ShaderParam := GL_COMPILE_STATUS.
Inductive ProgramParam := GL_LINK_STATUS.
Inductive BufferTarget := GL_ARRAY_BUFFER | GL_ELEMENT_ARRAY_BUFFER.
Inductive BufferUsage := GL_STATIC_DRAW.
Inductive DataType := GL_FLOAT | GL_UNSIGNED_INT.
Inductive Primitive := GL_TRIANGLES.
Inductive ClearMask := GL_COLOR_BUFFER_BIT.

Definition KeyAction_eqb (a b : KeyAction) : bool :=
  match a, b with
  | GLFW_RELEASE, GLFW_RELEASE | GLFW_PRESS, GLFW_PRESS => true
  | _, _ => false
  end.

(** [sizeof(float)] and [sizeof(unsigned int)] on the platforms GLFW runs on. *)
Definition sizeof_float : Z := 4.
Definition sizeof_uint : Z := 4.

(** The newline character that the source writes as a backslash escape. *)
Definition nl : string := String (ascii_of_nat 10) EmptyString.

(** The terminator of a C string. *)
Definition NUL : ascii := ascii_of_nat 0.

(** ** Data the programs hand to the GL *)

(** A [float] is kept as the rational its literal denotes. *)
Definition float := Q.
Definition vec3 : Type := float * float * float.
Definition vec4 : Type := float * float * float * float.
Definition Triangle3 : Type := vec3 * vec3 * vec3.
Definition Rect : Type := Z * Z * Z * Z.

(** The payload of [glBufferData]: the array the pointer argument points to. *)
Inductive BufferData :=
| NoData
| FloatData (l : list float)
| UIntData (l : list Z).

(** Every library call the programs make, with the arguments they pass.
    GLFW window pointers and GL object names are integers, [0] being
    [nullptr] / the reserved name. *)
Inductive Call :=
| c_glfwInit
| c_glfwWindowHint (hint : WindowHint) (value : HintValue)
| c_glfwCreateWindow (width height : Z) (title : string) (monitor share : Z)
| c_glfwTerminate
| c_glfwMakeContextCurrent (window : Z)
| c_glfwSetFramebufferSizeCallback (window : Z)
| c_gladLoadGLLoader
| c_cout (s : string)
| c_cout_infoLog (printed : string)
| c_glCreateShader (type : ShaderType)
| c_glShaderSource (shader : Z) (count : Z) (src : string)
| c_glCompileShader (shader : Z)
| c_glGetShaderiv (shader : Z) (pname : ShaderParam)
| c_glGetShaderInfoLog (shader : Z) (bufSize : Z)
| c_glCreateProgram
| c_glAttachShader (program shader : Z)
| c_glLinkProgram (program : Z)
| c_glGetProgramiv (program : Z) (pname : ProgramParam)
| c_glGetProgramInfoLog (program : Z) (bufSize : Z)
| c_glDeleteShader (shader : Z)
| c_glGenVertexArrays (n : Z)
| c_glGenBuffers (n : Z)
| c_glBindVertexArray (array : Z)
| c_glBindBuffer (target : BufferTarget) (buffer : Z)
| c_glBufferData (target : BufferTarget) (size : Z) (data : BufferData)
    (usage : BufferUsage)
| c_glVertexAttribPointer (index size : Z) (type : DataType)
    (normalized : GLboolean) (stride offset : Z)
| c_glEnableVertexAttribArray (index : Z)
| c_glfwWindowShouldClose (window : Z)
| c_glfwGetKey (window : Z) (key : Key)
| c_glfwSetWindowShouldClose (window : Z) (value : bool)
| c_glClearColor (r g b a : float)
| c_glClear (mask : ClearMask)
| c_glUseProgram (program : Z)
| c_glDrawArrays (mode : Primitive) (first count : Z)
| c_glDrawElements (mode : Primitive) (count : Z) (type : DataType)
    (offset : Z)
| c_glfwSwapBuffers (window : Z)
| c_glfwPollEvents
| c_glDeleteVertexArrays (n : Z) (array : Z)
| c_glDeleteBuffers (n : Z) (buffer : Z)
| c_glDeleteProgram (program : Z)
| c_glViewport (x y width height : Z).

(** ** The world: everything the libraries and the user decide *)

Inductive WindowEvent :=
| CloseRequested
| FramebufferResized (width height : Z).

(** What happens around one pass of the render loop: the state of the Escape
    key when [glfwGetKey] asks for it, and the events [glfwPollEvents] finds
    queued. *)
Record FrameInput := {
  escape_key : KeyAction;
  events : list WindowEvent
}.

Record World := {
  (** whether the build defines [__APPLE__] *)
  apple : bool;
  (** whether [glfwInit] succeeds *)
  glfwInit_ok : bool;
  (** the pointer [glfwCreateWindow] returns *)
  created_window : Z;
  (** the pixel size of the framebuffer of the window at creation *)
  initial_framebuffer_size : Z * Z;
  (** the [int] that [gladLoadGLLoader] returns *)
  glad_result : Z;
  (** the object names the GL hands out, in the order they are asked for *)
  gen_name : nat -> Z;
  (** what the driver answers to a status query about an object *)
  shader_compile_status : Z -> Z;
  program_link_status : Z -> Z;
  (** the complete information log the driver keeps for an object *)
  shader_info_log : Z -> list ascii;
  program_info_log : Z -> list ascii;
  (** the user and the window system, pass by pass *)
  frame_input : nat -> FrameInput;
  (** the indeterminate bytes of the never-initialised local [infoLog] *)
  stack_garbage : nat -> ascii
}.

(** GLFW reports [GLFW_NOT_INITIALIZED] and returns [NULL] from
    [glfwCreateWindow] when [glfwInit] has not succeeded. *)
Definition glfw_conforming (w : World) : Prop :=
  glfwInit_ok w = false -> created_window w = 0.

(** ** The state of the GL context *)

Record ShaderObj := {
  sh_type : ShaderType;
  sh_source : string;
  (** the compile status the driver gave at the last [glCompileShader] *)
  sh_status : option Z
}.

Record ProgramObj := {
  pr_attached : list Z;
  (** the stages that went into the last [glLinkProgram], and its status *)
  pr_stages : list ShaderObj;
  pr_status : option Z
}.

Record VertexAttrib := {
  at_enabled : bool;
  at_buffer : Z;
  at_size : Z;
  at_type : DataType;
  at_normalized : GLboolean;
  at_stride : Z;
  at_offset : Z
}.

Record VertexArrayObj := {
  vao_element_buffer : Z;
  vao_attribs : gmap Z VertexAttrib
}.

(** What reached the back buffer.  The pixels are the GPU's function of this
    list: the colour the buffer was cleared to, then for every draw call the
    program object in use, the viewport, and the assembled primitives. *)
Inductive RenderOp :=
| Cleared (color : vec4)
| Drawn (program : option ProgramObj) (vp : Rect)
    (primitives : option (list Triangle3)).

Definition Frame : Type := list RenderOp.

Record GLState := {
  viewport : Rect;
  clear_color : vec4;
  current_program : Z;
  vertex_array_binding : Z;
  array_buffer_binding : Z;
  shaders : gmap Z ShaderObj;
  programs : gmap Z ProgramObj;
  vertex_arrays : gmap Z VertexArrayObj;
  buffers : gmap Z BufferData;
  back_buffer : Frame
}.

Definition set_viewport (x : Rect) (g : GLState) : GLState :=
  {| viewport := x; clear_color := clear_color g;
     current_program := current_program g;
     vertex_array_binding := vertex_array_binding g;
     array_buffer_binding := array_buffer_binding g;
     shaders := shaders g; programs := programs g;
     vertex_arrays := vertex_arrays g; buffers := buffers g;
     back_buffer := back_buffer g |}.

Definition set_clear_color (x : vec4) (g : GLState) : GLState :=
  {| viewport := viewport g; clear_color := x;
     current_program := current_program g;
     vertex_array_binding := vertex_array_binding g;
     array_buffer_binding := array_buffer_binding g;
     shaders := shaders g; programs := programs g;
     vertex_arrays := vertex_arrays g; buffers := buffers g;
     back_buffer := back_buffer g |}.

Definition set_current_program (x : Z) (g : GLState) : GLState :=
  {| viewport := viewport g; clear_color := clear_color g;
     current_program := x;
     vertex_array_binding := vertex_array_binding g;
     array_buffer_binding := array_buffer_binding g;
     shaders := shaders g; programs := programs g;
     vertex_arrays := vertex_arrays g; buffers := buffers g;
     back_buffer := back_buffer g |}.

Definition set_vertex_array_binding (x : Z) (g : GLState) : GLState :=
  {| viewport := viewport g; clear_color := clear_color g;
     current_program := current_program g;
     vertex_array_binding := x;
     array_buffer_binding := array_buffer_binding g;
     shaders := shaders g; programs := programs g;
     vertex_arrays := vertex_arrays g; buffers := buffers g;
     back_buffer := back_buffer g |}.

Definition set_array_buffer_binding (x : Z) (g : GLState) : GLState :=
  {| viewport := viewport g; clear_color := clear_color g;
     current_program := current_program g;
     vertex_array_binding := vertex_array_binding g;
     array_buffer_binding := x;
     shaders := shaders g; programs := programs g;
     vertex_arrays := vertex_arrays g; buffers := buffers g;
     back_buffer := back_buffer g |}.

Definition set_shaders (x : gmap Z ShaderObj) (g : GLState) : GLState :=
  {| viewport := viewport g; clear_color := clear_color g;
     current_program := current_program g;
     vertex_array_binding := vertex_array_binding g;
     array_buffer_binding := array_buffer_binding g;
     shaders := x; programs := programs g;
     vertex_arrays := vertex_arrays g; buffers := buffers g;
     back_buffer := back_buffer g |}.

Definition set_programs (x : gmap Z ProgramObj) (g : GLState) : GLState :=
  {| viewport := viewport g; clear_color := clear_color g;
     current_program := current_program g;
     vertex_array_binding := vertex_array_binding g;
     array_buffer_binding := array_buffer_binding g;
     shaders := shaders g; programs := x;
     vertex_arrays := vertex_arrays g; buffers := buffers g;
     back_buffer := back_buffer g |}.

Definition set_vertex_arrays (x : gmap Z VertexArrayObj) (g : GLState)
  : GLState :=
  {| viewport := viewport g; clear_color := clear_color g;
     current_program := current_program g;
     vertex_array_binding := vertex_array_binding g;
     array_buffer_binding := array_buffer_binding g;
     shaders := shaders g; programs := programs g;
     vertex_arrays := x; buffers := buffers g;
     back_buffer := back_buffer g |}.

Definition set_buffers (x : gmap Z BufferData) (g : GLState) : GLState :=
  {| viewport := viewport g; clear_color := clear_color g;
     current_program := current_program g;
     vertex_array_binding := vertex_array_binding g;
     array_buffer_binding := array_buffer_binding g;
     shaders := shaders g; programs := programs g;
     vertex_arrays := vertex_arrays g; buffers := x;
     back_buffer := back_buffer g |}.

Definition set_back_buffer (x : Frame) (g : GLState) : GLState :=
  {| viewport := viewport g; clear_color := clear_color g;
     current_program := current_program g;
     vertex_array_binding := vertex_array_binding g;
     array_buffer_binding := array_buffer_binding g;
     shaders := shaders g; programs := programs g;
     vertex_arrays := vertex_arrays g; buffers := buffers g;
     back_buffer := x |}.

Definition gl_initial : GLState :=
  {| viewport := (0, 0, 0, 0); clear_color := (0, 0, 0, 0)%Q;
     current_program := 0; vertex_array_binding := 0;
     array_buffer_binding := 0;
     shaders := ∅; programs := ∅; vertex_arrays := ∅; buffers := ∅;
     back_buffer := [] |}.

(** *** Vertex fetch and primitive assembly *)

(** The three floats of vertex [i] in a buffer read with the given byte
    stride and byte offset. *)
Definition fetch_vec3 (data : list float) (stride offset i : Z)
  : option vec3 :=
  let byte := offset + i * stride in
  if (0 <=? byte) && (byte mod sizeof_float =? 0) then
    let k := Z.to_nat (byte / sizeof_float) in
    match data !! k, data !! S k, data !! S (S k) with
    | Some x, Some y, Some z => Some (x, y, z)
    | _, _, _ => None
    end
  else None.

(** Attribute 0 of the vertex array object [array], the [vec3 aPos] of the
    vertex stage, read from the buffer the attribute points into.  A stride
    of [0] means tightly packed. *)
Definition fetch_vertex (arrays : gmap Z VertexArrayObj)
    (store : gmap Z BufferData) (array : Z) (i : Z) : option vec3 :=
  match arrays !! array with
  | None => None
  | Some vao =>
    match vao_attribs vao !! 0 with
    | None => None
    | Some a =>
      match at_type a, store !! at_buffer a with
      | GL_FLOAT, Some (FloatData l) =>
        if at_enabled a && (at_size a =? 3) then
          fetch_vec3 l
            (if at_stride a =? 0 then at_size a * sizeof_float
             else at_stride a)
            (at_offset a) i
        else None
      | _, _ => None
      end
    end
  end.

(** [GL_TRIANGLES]: every three consecutive vertices form one triangle; a
    vertex that cannot be fetched makes the draw undefined. *)
Fixpoint assemble_triangles (vs : list (option vec3))
  : option (list Triangle3) :=
  match vs with
  | Some a :: Some b :: Some c :: rest =>
      match assemble_triangles rest with
      | Some ts => Some ((a, b, c) :: ts)
      | None => None
      end
  | None :: _ | _ :: None :: _ | _ :: _ :: None :: _ => None
  | _ => Some []
  end.

Definition array_indices (first count : Z) : list Z :=
  map (fun k => first + Z.of_nat k) (seq 0 (Z.to_nat count)).

(** The indices an indexed draw reads from the element buffer of the vertex
    array object [array]. *)
Definition element_indices (arrays : gmap Z VertexArrayObj)
    (store : gmap Z BufferData) (array : Z) (count offset : Z)
  : option (list Z) :=
  match arrays !! array with
  | None => None
  | Some vao =>
    match store !! vao_element_buffer vao with
    | Some (UIntData l) =>
      let picked :=
        take (Z.to_nat count) (drop (Z.to_nat (offset / sizeof_uint)) l) in
      if (length picked =? Z.to_nat count)%nat then Some picked else None
    | _ => None
    end
  end.

(** A draw call adds to the back buffer what the current program, the
    viewport and the bound vertex array make of the given indices. *)
Definition draw (g : GLState) (indices : option (list Z)) : GLState :=
  set_back_buffer
    (back_buffer g ++
     [Drawn (programs g !! current_program g) (viewport g)
        (match indices with
         | Some l =>
             assemble_triangles
               (map (fetch_vertex (vertex_arrays g) (buffers g)
                       (vertex_array_binding g)) l)
         | None => None
         end)])%list
    g.

(** ** The machine: GLFW, GLAD, the GL context, the console, the stack *)

Record Window := {
  should_close : bool;
  context_current : bool;
  size_callback_set : bool
}.

Record Machine := {
  glfw_initialized : bool;
  (** [Some] while the window object exists *)
  window_state : option Window;
  glad_loaded : bool;
  gl : GLState;
  (** everything written to [std::cout] *)
  console : string;
  (** the library calls made so far, oldest first *)
  calls : list Call;
  (** the frames handed to the screen by [glfwSwapBuffers], oldest first *)
  presented : list Frame;
  (** the local array [char infoLog[512]] of [main] *)
  infoLog : list ascii;
  (** set when a write ran past the end of [infoLog], or a read ran past it
      looking for the terminator *)
  overrun : bool;
  (** how many passes of input the world has delivered *)
  tick : nat;
  (** how many object names the GL has handed out *)
  names_used : nat
}.

Definition set_glfw_initialized (x : bool) (m : Machine) : Machine :=
  {| glfw_initialized := x; window_state := window_state m;
     glad_loaded := glad_loaded m; gl := gl m; console := console m;
     calls := calls m; presented := presented m; infoLog := infoLog m;
     overrun := overrun m; tick := tick m; names_used := names_used m |}.

Definition set_window_state (x : option Window) (m : Machine) : Machine :=
  {| glfw_initialized := glfw_initialized m; window_state := x;
     glad_loaded := glad_loaded m; gl := gl m; console := console m;
     calls := calls m; presented := presented m; infoLog := infoLog m;
     overrun := overrun m; tick := tick m; names_used := names_used m |}.

Definition set_glad_loaded (x : bool) (m : Machine) : Machine :=
  {| glfw_initialized := glfw_initialized m; window_state := window_state m;
     glad_loaded := x; gl := gl m; console := console m;
     calls := calls m; presented := presented m; infoLog := infoLog m;
     overrun := overrun m; tick := tick m; names_used := names_used m |}.

Definition set_gl (x : GLState) (m : Machine) : Machine :=
  {| glfw_initialized := glfw_initialized m; window_state := window_state m;
     glad_loaded := glad_loaded m; gl := x; console := console m;
     calls := calls m; presented := presented m; infoLog := infoLog m;
     overrun := overrun m; tick := tick m; names_used := names_used m |}.

Definition set_console (x : string) (m : Machine) : Machine :=
  {| glfw_initialized := glfw_initialized m; window_state := window_state m;
     glad_loaded := glad_loaded m; gl := gl m; console := x;
     calls := calls m; presented := presented m; infoLog := infoLog m;
     overrun := overrun m; tick := tick m; names_used := names_used m |}.

Definition set_calls (x : list Call) (m : Machine) : Machine :=
  {| glfw_initialized := glfw_initialized m; window_state := window_state m;
     glad_loaded := glad_loaded m; gl := gl m; console := console m;
     calls := x; presented := presented m; infoLog := infoLog m;
     overrun := overrun m; tick := tick m; names_used := names_used m |}.

Definition set_presented (x : list Frame) (m : Machine) : Machine :=
  {| glfw_initialized := glfw_initialized m; window_state := window_state m;
     glad_loaded := glad_loaded m; gl := gl m; console := console m;
     calls := calls m; presented := x; infoLog := infoLog m;
     overrun := overrun m; tick := tick m; names_used := names_used m |}.

Definition set_infoLog (x : list ascii) (m : Machine) : Machine :=
  {| glfw_initialized := glfw_initialized m; window_state := window_state m;
     glad_loaded := glad_loaded m; gl := gl m; console := console m;
     calls := calls m; presented := presented m; infoLog := x;
     overrun := overrun m; tick := tick m; names_used := names_used m |}.

Definition set_overrun (x : bool) (m : Machine) : Machine :=
  {| glfw_initialized := glfw_initialized m; window_state := window_state m;
     glad_loaded := glad_loaded m; gl := gl m; console := console m;
     calls := calls m; presented := presented m; infoLog := infoLog m;
     overrun := x; tick := tick m; names_used := names_used m |}.

Definition set_tick (x : nat) (m : Machine) : Machine :=
  {| glfw_initialized := glfw_initialized m; window_state := window_state m;
     glad_loaded := glad_loaded m; gl := gl m; console := console m;
     calls := calls m; presented := presented m; infoLog := infoLog m;
     overrun := overrun m; tick := x; names_used := names_used m |}.

Definition set_names_used (x : nat) (m : Machine) : Machine :=
  {| glfw_initialized := glfw_initialized m; window_state := window_state m;
     glad_loaded := glad_loaded m; gl := gl m; console := console m;
     calls := calls m; presented := presented m; infoLog := infoLog m;
     overrun := overrun m; tick := tick m; names_used := x |}.

(** The machine at process start. *)
Definition boot : Machine :=
  {| glfw_initialized := false; window_state := None; glad_loaded := false;
     gl := gl_initial; console := ""; calls := []; presented := [];
     infoLog := []; overrun := false; tick := 0; names_used := 0 |}.

(** ** The monad the programs run in

    A computation reads the world, updates the machine and returns a value.
    The render loop is given fuel; when it runs out the computation stops
    where it is, and the outcome is the machine at that moment. *)

Inductive Outcome (A : Type) :=
| Finished (a : A) (m : Machine)
| Running (m : Machine).
Arguments Finished {A} a m.
Arguments Running {A} m.

Definition machine_of {A} (o : Outcome A) : Machine :=
  match o with
  | Finished _ m | Running m => m
  end.

Definition M (A : Type) : Type := World -> Machine -> Outcome A.

Definition ret {A} (a : A) : M A := fun _ m => Finished a m.

Definition bind {A B} (c : M A) (k : A -> M B) : M B :=
  fun w m =>
    match c w m with
    | Finished a m' => k a w m'
    | Running m' => Running m'
    end.

Definition ask : M World := fun w m => Finished w m.
Definition get : M Machine := fun _ m => Finished m m.
Definition modify (f : Machine -> Machine) : M unit :=
  fun _ m => Finished tt (f m).
Definition out_of_fuel {A} : M A := fun _ m => Running m.

Notation "x <- c1 ;; c2" := (bind c1 (fun x => c2))
  (at level 100, c1 at next level, right associativity).
Notation "c1 ;; c2" := (bind c1 (fun _ => c2))
  (at level 100, right associativity).

Definition call (c : Call) : M unit :=
  modify (fun m => set_calls (calls m ++ [c]) m).

Definition modify_gl (f : GLState -> GLState) : M unit :=
  modify (fun m => set_gl (f (gl m)) m).

Definition modify_window (f : Window -> Window) : M unit :=
  modify (fun m => set_window_state (f <$> window_state m) m).

(** ** The console *)

(** [std::cout << s] for a string literal. *)
Definition cout (s : string) : M unit :=
  call (c_cout s) ;;
  modify (fun m => set_console (console m ++ s) m).

(** The characters of a C string held in a buffer: all up to the first
    terminator. *)
Fixpoint c_str (buf : list ascii) : string :=
  match buf with
  | [] => ""
  | c :: rest => if Ascii.eqb c NUL then "" else String c (c_str rest)
  end.

Definition terminated (buf : list ascii) : bool :=
  existsb (Ascii.eqb NUL) buf.

(** [std::cout << infoLog]: the array decays to a [char*] and is printed up
    to its terminator; without one the read leaves the array. *)
Definition cout_infoLog : M unit :=
  m <- get ;;
  call (c_cout_infoLog (c_str (infoLog m))) ;;
  modify (fun m =>
    set_overrun (overrun m || negb (terminated (infoLog m)))
      (set_console (console m ++ c_str (infoLog m)) m)).

(** ** GLFW *)

Definition glfwInit : M bool :=
  call c_glfwInit ;;
  w <- ask ;;
  modify (set_glfw_initialized (glfwInit_ok w)) ;;
  ret (glfwInit_ok w).

Definition glfwWindowHint (hint : WindowHint) (value : HintValue) : M unit :=
  call (c_glfwWindowHint hint value).

Definition glfwCreateWindow (width height : Z) (title : string)
    (monitor share : Z) : M Z :=
  call (c_glfwCreateWindow width height title monitor share) ;;
  w <- ask ;;
  modify (set_window_state
            (if created_window w =? 0 then None
             else Some {| should_close := false; context_current := false;
                          size_callback_set := false |})) ;;
  ret (created_window w).

(** Destroys every remaining window and shuts the library down. *)
Definition glfwTerminate : M unit :=
  call c_glfwTerminate ;;
  modify (set_window_state None) ;;
  modify (set_glfw_initialized false).

(** A context that is made current for the first time gets the whole
    framebuffer as its viewport. *)
Definition glfwMakeContextCurrent (window : Z) : M unit :=
  call (c_glfwMakeContextCurrent window) ;;
  modify_window (fun x =>
    {| should_close := should_close x; context_current := true;
       size_callback_set := size_callback_set x |}) ;;
  w <- ask ;;
  modify_gl (set_viewport
    (0, 0, fst (initial_framebuffer_size w), snd (initial_framebuffer_size w))).

(** The only function the programs ever register is
    [framebuffer_size_callback], so the window records just that one is set. *)
Definition glfwSetFramebufferSizeCallback (window : Z) : M unit :=
  call (c_glfwSetFramebufferSizeCallback window) ;;
  modify_window (fun x =>
    {| should_close := should_close x; context_current := context_current x;
       size_callback_set := true |}).

Definition glfwWindowShouldClose (window : Z) : M bool :=
  call (c_glfwWindowShouldClose window) ;;
  m <- get ;;
  ret (match window_state m with
       | Some x => should_close x
       | None => false
       end).

Definition glfwSetWindowShouldClose (window : Z) (value : bool) : M unit :=
  call (c_glfwSetWindowShouldClose window value) ;;
  modify_window (fun x =>
    {| should_close := value; context_current := context_current x;
       size_callback_set := size_callback_set x |}).

Definition glfwGetKey (window : Z) (key : Key) : M KeyAction :=
  call (c_glfwGetKey window key) ;;
  w <- ask ;;
  m <- get ;;
  ret (match key with
       | GLFW_KEY_ESCAPE => escape_key (frame_input w (tick m))
       end).

(** ** GLAD *)

Definition gladLoadGLLoader : M Z :=
  call c_gladLoadGLLoader ;;
  w <- ask ;;
  modify (set_glad_loaded (negb (glad_result w =? 0))) ;;
  ret (glad_result w).

(** ** The GL *)

(** The next object name; [0] is what the GL returns when it cannot create
    the object, and names nothing. *)
Definition fresh_name : M Z :=
  w <- ask ;;
  m <- get ;;
  modify (set_names_used (S (names_used m))) ;;
  ret (gen_name w (names_used m)).

Definition register {A} (n : Z) (x : A) (store : gmap Z A) : gmap Z A :=
  if n =? 0 then store else <[n := x]> store.

Definition glCreateShader (type : ShaderType) : M Z :=
  call (c_glCreateShader type) ;;
  n <- fresh_name ;;
  modify_gl (fun g =>
    set_shaders
      (register n {| sh_type := type; sh_source := ""; sh_status := None |}
         (shaders g)) g) ;;
  ret n.

(** [glShaderSource(shader, 1, &src, nullptr)]: one terminated string. *)
Definition glShaderSource (shader : Z) (count : Z) (src : string) : M unit :=
  call (c_glShaderSource shader count src) ;;
  modify_gl (fun g =>
    set_shaders
      (alter (fun o => {| sh_type := sh_type o; sh_source := src;
                          sh_status := sh_status o |}) shader (shaders g)) g).

Definition glCompileShader (shader : Z) : M unit :=
  call (c_glCompileShader shader) ;;
  w <- ask ;;
  modify_gl (fun g =>
    set_shaders
      (alter (fun o => {| sh_type := sh_type o; sh_source := sh_source o;
                          sh_status := Some (shader_compile_status w shader) |})
         shader (shaders g)) g).

(** [glGetShaderiv(shader, pname, &success)]: the value stored through the
    pointer is returned. *)
Definition glGetShaderiv (shader : Z) (pname : ShaderParam) : M Z :=
  call (c_glGetShaderiv shader pname) ;;
  w <- ask ;;
  ret (match pname with
       | GL_COMPILE_STATUS => shader_compile_status w shader
       end).

(** What an information-log query copies out: at most [bufSize] bytes, the
    terminator included. *)
Definition log_bytes (bufSize : Z) (log : list ascii) : list ascii :=
  if bufSize <=? 0 then []
  else (take (Z.to_nat (bufSize - 1)) log ++ [NUL])%list.

(** A buffer after [bytes] were written at its start; the buffer keeps its
    size. *)
Definition overwrite (bytes buf : list ascii) : list ascii :=
  take (length buf) (bytes ++ drop (length bytes) buf).

(** Writing [bytes] into [infoLog]; what does not fit is a write past the
    end of the array. *)
Definition store_bytes (bytes : list ascii) (m : Machine) : Machine :=
  set_overrun (overrun m || (length (infoLog m) <? length bytes)%nat)
    (set_infoLog (overwrite bytes (infoLog m)) m).

(** [glGetShaderInfoLog(shader, bufSize, nullptr, infoLog)] *)
Definition glGetShaderInfoLog (shader : Z) (bufSize : Z) : M unit :=
  call (c_glGetShaderInfoLog shader bufSize) ;;
  w <- ask ;;
  modify (store_bytes (log_bytes bufSize (shader_info_log w shader))).

Definition glCreateProgram : M Z :=
  call c_glCreateProgram ;;
  n <- fresh_name ;;
  modify_gl (fun g =>
    set_programs
      (register n {| pr_attached := []; pr_stages := []; pr_status := None |}
         (programs g)) g) ;;
  ret n.

Definition glAttachShader (program shader : Z) : M unit :=
  call (c_glAttachShader program shader) ;;
  modify_gl (fun g =>
    set_programs
      (alter (fun o => {| pr_attached := (pr_attached o ++ [shader])%list;
                          pr_stages := pr_stages o;
                          pr_status := pr_status o |})
         program (programs g)) g).

Definition glLinkProgram (program : Z) : M unit :=
  call (c_glLinkProgram program) ;;
  w <- ask ;;
  modify_gl (fun g =>
    set_programs
      (alter (fun o => {| pr_attached := pr_attached o;
                          pr_stages :=
                            omap (fun n => shaders g !! n) (pr_attached o);
                          pr_status := Some (program_link_status w program) |})
         program (programs g)) g).

Definition glGetProgramiv (program : Z) (pname : ProgramParam) : M Z :=
  call (c_glGetProgramiv program pname) ;;
  w <- ask ;;
  ret (match pname with
       | GL_LINK_STATUS => program_link_status w program
       end).

(** [glGetProgramInfoLog(program, bufSize, nullptr, infoLog)] *)
Definition glGetProgramInfoLog (program : Z) (bufSize : Z) : M unit :=
  call (c_glGetProgramInfoLog program bufSize) ;;
  w <- ask ;;
  modify (store_bytes (log_bytes bufSize (program_info_log w program))).

(** The name is released; the stages already linked stay in the program. *)
Definition glDeleteShader (shader : Z) : M unit :=
  call (c_glDeleteShader shader) ;;
  modify_gl (fun g => set_shaders (delete shader (shaders g)) g).

Definition glDeleteProgram (program : Z) : M unit :=
  call (c_glDeleteProgram program) ;;
  modify_gl (fun g => set_programs (delete program (programs g)) g).

(** [glGenVertexArrays(1, &VAO)]: the one name written through the pointer
    is returned. *)
Definition glGenVertexArrays (n : Z) : M Z :=
  call (c_glGenVertexArrays n) ;;
  a <- fresh_name ;;
  modify_gl (fun g =>
    set_vertex_arrays
      (register a {| vao_element_buffer := 0; vao_attribs := ∅ |}
         (vertex_arrays g)) g) ;;
  ret a.

(** [glGenBuffers(1, &buffer)] *)
Definition glGenBuffers (n : Z) : M Z :=
  call (c_glGenBuffers n) ;;
  b <- fresh_name ;;
  modify_gl (fun g => set_buffers (register b NoData (buffers g)) g) ;;
  ret b.

(** [glDeleteVertexArrays(1, &VAO)] *)
Definition glDeleteVertexArrays (n : Z) (array : Z) : M unit :=
  call (c_glDeleteVertexArrays n array) ;;
  modify_gl (fun g => set_vertex_arrays (delete array (vertex_arrays g)) g).

(** [glDeleteBuffers(1, &buffer)] *)
Definition glDeleteBuffers (n : Z) (buffer : Z) : M unit :=
  call (c_glDeleteBuffers n buffer) ;;
  modify_gl (fun g => set_buffers (delete buffer (buffers g)) g).

Definition glBindVertexArray (array : Z) : M unit :=
  call (c_glBindVertexArray array) ;;
  modify_gl (set_vertex_array_binding array).

(** The element-array binding belongs to the bound vertex array object; the
    array-buffer binding belongs to the context. *)
Definition glBindBuffer (target : BufferTarget) (buffer : Z) : M unit :=
  call (c_glBindBuffer target buffer) ;;
  modify_gl (fun g =>
    match target with
    | GL_ARRAY_BUFFER => set_array_buffer_binding buffer g
    | GL_ELEMENT_ARRAY_BUFFER =>
        set_vertex_arrays
          (alter (fun o => {| vao_element_buffer := buffer;
                              vao_attribs := vao_attribs o |})
             (vertex_array_binding g) (vertex_arrays g)) g
    end).

Definition bound_buffer (g : GLState) (target : BufferTarget) : Z :=
  match target with
  | GL_ARRAY_BUFFER => array_buffer_binding g
  | GL_ELEMENT_ARRAY_BUFFER =>
      match vertex_arrays g !! vertex_array_binding g with
      | Some o => vao_element_buffer o
      | None => 0
      end
  end.

(** The first [size] bytes of the array the pointer refers to. *)
Definition clip (size : Z) (data : BufferData) : BufferData :=
  match data with
  | NoData => NoData
  | FloatData l => FloatData (take (Z.to_nat (size / sizeof_float)) l)
  | UIntData l => UIntData (take (Z.to_nat (size / sizeof_uint)) l)
  end.

Definition glBufferData (target : BufferTarget) (size : Z) (data : BufferData)
    (usage : BufferUsage) : M unit :=
  call (c_glBufferData target size data usage) ;;
  modify_gl (fun g =>
    set_buffers
      (alter (fun _ => clip size data) (bound_buffer g target) (buffers g)) g).

Definition glVertexAttribPointer (index size : Z) (type : DataType)
    (normalized : GLboolean) (stride offset : Z) : M unit :=
  call (c_glVertexAttribPointer index size type normalized stride offset) ;;
  modify_gl (fun g =>
    set_vertex_arrays
      (alter (fun o =>
         {| vao_element_buffer := vao_element_buffer o;
            vao_attribs :=
              <[index :=
                 {| at_enabled :=
                      match vao_attribs o !! index with
                      | Some a => at_enabled a
                      | None => false
                      end;
                    at_buffer := array_buffer_binding g;
                    at_size := size; at_type := type;
                    at_normalized := normalized;
                    at_stride := stride; at_offset := offset |}]>
                (vao_attribs o) |})
         (vertex_array_binding g) (vertex_arrays g)) g).

Definition glEnableVertexAttribArray (index : Z) : M unit :=
  call (c_glEnableVertexAttribArray index) ;;
  modify_gl (fun g =>
    set_vertex_arrays
      (alter (fun o =>
         {| vao_element_buffer := vao_element_buffer o;
            vao_attribs :=
              alter (fun a =>
                {| at_enabled := true; at_buffer := at_buffer a;
                   at_size := at_size a; at_type := at_type a;
                   at_normalized := at_normalized a;
                   at_stride := at_stride a; at_offset := at_offset a |})
                index (vao_attribs o) |})
         (vertex_array_binding g) (vertex_arrays g)) g).

Definition glViewport (x y width height : Z) : M unit :=
  call (c_glViewport x y width height) ;;
  modify_gl (set_viewport (x, y, width, height)).

Definition glClearColor (r g b a : float) : M unit :=
  call (c_glClearColor r g b a) ;;
  modify_gl (set_clear_color (r, g, b, a)).

Definition glClear (mask : ClearMask) : M unit :=
  call (c_glClear mask) ;;
  modify_gl (fun g => set_back_buffer [Cleared (clear_color g)] g).

Definition glUseProgram (program : Z) : M unit :=
  call (c_glUseProgram program) ;;
  modify_gl (set_current_program program).

Definition glDrawArrays (mode : Primitive) (first count : Z) : M unit :=
  call (c_glDrawArrays mode first count) ;;
  modify_gl (fun g => draw g (Some (array_indices first count))).

(** Only [GL_UNSIGNED_INT] indices are read; other index types leave the
    draw undefined. *)
Definition glDrawElements (mode : Primitive) (count : Z) (type : DataType)
    (offset : Z) : M unit :=
  call (c_glDrawElements mode count type offset) ;;
  modify_gl (fun g =>
    draw g (match type with
            | GL_UNSIGNED_INT =>
                element_indices (vertex_arrays g) (buffers g)
                  (vertex_array_binding g) count offset
            | GL_FLOAT => None
            end)).

Definition glfwSwapBuffers (window : Z) : M unit :=
  call (c_glfwSwapBuffers window) ;;
  modify (fun m => set_presented (presented m ++ [back_buffer (gl m)]) m).

(** ** The programs *)

Definition SCR_WIDTH : Z := 800.
Definition SCR_HEIGHT : Z := 600.

Definition vertexShaderSource : string := "
#version 330 core
layout (location = 0) in vec3 aPos;

void main()
{
    // OpenGL clip space is [-1, +1]
    gl_Position = vec4(aPos, 1.0);
}
".

Definition fragmentShaderSource : string := "
#version 330 core
out vec4 FragColor;

void main()
{
    FragColor = vec4(1.0, 0.5, 0.6, 1.0);
}
".

Definition title (v : Variant) : string :=
  match v with
  | Triangle => "OpenGL Beginner Renderer : My First OpenGL TRIANGLE"
  | Rectangle =>
      "OpenGL Beginner Renderer : My OpenGL RECTANGLE using indexed vertices"
  end.

(** [float vertices[]] of either program. *)
Definition vertices (v : Variant) : list float :=
  match v with
  | Triangle =>
      [ -0.5; -0.5; 0.0;
         0.5; -0.5; 0.0;
         0.0;  0.5; 0.0 ]%Q
  | Rectangle =>
      [  0.5;  0.5; 0.0;
         0.5; -0.5; 0.0;
        -0.5; -0.5; 0.0;
        -0.5;  0.5; 0.0 ]%Q
  end.

(** [unsigned int indices[]] of the rectangle program. *)
Definition indices : list Z :=
  [ 0; 1; 3;
    1; 2; 3 ].

Definition processInput (window : Z) : M unit :=
  key <- glfwGetKey window GLFW_KEY_ESCAPE ;;
  if KeyAction_eqb key GLFW_PRESS
  then glfwSetWindowShouldClose window true
  else ret tt.

Definition framebuffer_size_callback (window : Z) (width height : Z)
  : M unit :=
  glViewport 0 0 width height.

(** *** Event processing

    [glfwPollEvents] is GLFW's, but it is the one place where GLFW calls
    back into the program, so it can only be written down after
    [framebuffer_size_callback].  A close request sets the close flag of the
    window; a new framebuffer size is passed to the registered callback. *)

Definition deliver (window : Z) (e : WindowEvent) : M unit :=
  match e with
  | CloseRequested =>
      modify_window (fun x =>
        {| should_close := true; context_current := context_current x;
           size_callback_set := size_callback_set x |})
  | FramebufferResized width height =>
      m <- get ;;
      match window_state m with
      | Some x =>
          if size_callback_set x
          then framebuffer_size_callback window width height
          else ret tt
      | None => ret tt
      end
  end.

Fixpoint deliver_all (window : Z) (es : list WindowEvent) : M unit :=
  match es with
  | [] => ret tt
  | e :: rest => deliver window e ;; deliver_all window rest
  end.

Definition glfwPollEvents : M unit :=
  call c_glfwPollEvents ;;
  w <- ask ;;
  m <- get ;;
  deliver_all (created_window w) (events (frame_input w (tick m))) ;;
  modify (fun m => set_tick (S (tick m)) m).

(** *** [main], section by section *)

(** [char infoLog[512];] *)
Definition declare_infoLog (size : nat) : M unit :=
  w <- ask ;;
  modify (set_infoLog (map (stack_garbage w) (seq 0 size))).

(** Section 4 of [main], "Compile Shaders"; returns [shaderProgram]. *)
Definition compile_shaders : M Z :=
  declare_infoLog 512 ;;

  vertexShader <- glCreateShader GL_VERTEX_SHADER ;;
  glShaderSource vertexShader 1 vertexShaderSource ;;
  glCompileShader vertexShader ;;

  success <- glGetShaderiv vertexShader GL_COMPILE_STATUS ;;
  (if success =? 0 then
     glGetShaderInfoLog vertexShader 512 ;;
     cout ("Vertex Shader Error:" ++ nl) ;; cout_infoLog ;; cout nl
   else ret tt) ;;

  fragmentShader <- glCreateShader GL_FRAGMENT_SHADER ;;
  glShaderSource fragmentShader 1 fragmentShaderSource ;;
  glCompileShader fragmentShader ;;

  success <- glGetShaderiv fragmentShader GL_COMPILE_STATUS ;;
  (if success =? 0 then
     glGetShaderInfoLog fragmentShader 512 ;;
     cout ("Fragment Shader Error:" ++ nl) ;; cout_infoLog ;; cout nl
   else ret tt) ;;

  shaderProgram <- glCreateProgram ;;
  glAttachShader shaderProgram vertexShader ;;
  glAttachShader shaderProgram fragmentShader ;;
  glLinkProgram shaderProgram ;;

  success <- glGetProgramiv shaderProgram GL_LINK_STATUS ;;
  (if success =? 0 then
     glGetProgramInfoLog shaderProgram 512 ;;
     cout ("Shader Link Error:" ++ nl) ;; cout_infoLog ;; cout nl
   else ret tt) ;;

  glDeleteShader vertexShader ;;
  glDeleteShader fragmentShader ;;
  ret shaderProgram.

(** Sections 5 and 6 of [main]: the vertex array, the vertex buffer and, in
    the rectangle program, the element buffer.  Returns [VAO], [VBO] and
    [EBO]. *)
Definition upload_geometry (v : Variant) : M (Z * Z * option Z) :=
  match v with
  | Triangle =>
      VAO <- glGenVertexArrays 1 ;;
      VBO <- glGenBuffers 1 ;;

      glBindVertexArray VAO ;;

      glBindBuffer GL_ARRAY_BUFFER VBO ;;
      glBufferData GL_ARRAY_BUFFER
        (Z.of_nat (length (vertices Triangle)) * sizeof_float)
        (FloatData (vertices Triangle))
        GL_STATIC_DRAW ;;

      glVertexAttribPointer 0 3 GL_FLOAT GL_FALSE (3 * sizeof_float) 0 ;;
      glEnableVertexAttribArray 0 ;;

      glBindBuffer GL_ARRAY_BUFFER 0 ;;
      glBindVertexArray 0 ;;
      ret (VAO, VBO, None)
  | Rectangle =>
      VAO <- glGenVertexArrays 1 ;;
      VBO <- glGenBuffers 1 ;;
      EBO <- glGenBuffers 1 ;;

      glBindVertexArray VAO ;;

      glBindBuffer GL_ARRAY_BUFFER VBO ;;
      glBufferData GL_ARRAY_BUFFER
        (Z.of_nat (length (vertices Rectangle)) * sizeof_float)
        (FloatData (vertices Rectangle))
        GL_STATIC_DRAW ;;

      glBindBuffer GL_ELEMENT_ARRAY_BUFFER EBO ;;
      glBufferData GL_ELEMENT_ARRAY_BUFFER
        (Z.of_nat (length indices) * sizeof_uint)
        (UIntData indices)
        GL_STATIC_DRAW ;;

      glVertexAttribPointer 0 3 GL_FLOAT GL_FALSE (3 * sizeof_float) 0 ;;
      glEnableVertexAttribArray 0 ;;

      glBindBuffer GL_ARRAY_BUFFER 0 ;;
      glBindVertexArray 0 ;;
      ret (VAO, VBO, Some EBO)
  end.

(** The one draw call of a pass. *)
Definition draw_call (v : Variant) : M unit :=
  match v with
  | Triangle => glDrawArrays GL_TRIANGLES 0 3
  | Rectangle => glDrawElements GL_TRIANGLES 6 GL_UNSIGNED_INT 0
  end.

(** The body of the [while] of section 7. *)
Definition loop_body (v : Variant) (window shaderProgram VAO : Z) : M unit :=
  processInput window ;;

  glClearColor 0.1%Q 0.1%Q 0.15%Q 1.0%Q ;;
  glClear GL_COLOR_BUFFER_BIT ;;

  glUseProgram shaderProgram ;;
  glBindVertexArray VAO ;;
  draw_call v ;;

  glfwSwapBuffers window ;;
  glfwPollEvents.

(** [while (!glfwWindowShouldClose(window)) { ... }]; each test of the
    condition takes one unit of fuel. *)
Fixpoint render_loop (fuel : nat) (v : Variant) (window shaderProgram VAO : Z)
  : M unit :=
  match fuel with
  | O => out_of_fuel
  | S fuel' =>
      closing <- glfwWindowShouldClose window ;;
      if closing then ret tt
      else
        loop_body v window shaderProgram VAO ;;
        render_loop fuel' v window shaderProgram VAO
  end.

(** Section 8 of [main], "Cleanup", up to the [return 0]. *)
Definition cleanup (shaderProgram VAO VBO : Z) (EBO : option Z) : M Z :=
  glDeleteVertexArrays 1 VAO ;;
  glDeleteBuffers 1 VBO ;;
  match EBO with
  | Some EBO => glDeleteBuffers 1 EBO
  | None => ret tt
  end ;;
  glDeleteProgram shaderProgram ;;

  glfwTerminate ;;
  ret 0.

Definition main (v : Variant) (fuel : nat) : M Z :=
  glfwInit ;;
  glfwWindowHint GLFW_CONTEXT_VERSION_MAJOR (HintInt 3) ;;
  glfwWindowHint GLFW_CONTEXT_VERSION_MINOR (HintInt 3) ;;
  glfwWindowHint GLFW_OPENGL_PROFILE GLFW_OPENGL_CORE_PROFILE ;;

  w <- ask ;;
  (if apple w
   then glfwWindowHint GLFW_OPENGL_FORWARD_COMPAT (HintBool GL_TRUE)
   else ret tt) ;;

  window <- glfwCreateWindow SCR_WIDTH SCR_HEIGHT (title v) 0 0 ;;

  if window =? 0 then
    cout ("Failed to create GLFW window" ++ nl) ;;
    glfwTerminate ;;
    ret (-1)
  else
    glfwMakeContextCurrent window ;;
    glfwSetFramebufferSizeCallback window ;;

    loaded <- gladLoadGLLoader ;;
    if loaded =? 0 then
      cout ("Failed to initialize GLAD" ++ nl) ;;
      ret (-1)
    else
      shaderProgram <- compile_shaders ;;
      objects <- upload_geometry v ;;
      let '(VAO, VBO, EBO) := objects in
      render_loop fuel v window shaderProgram VAO ;;
      cleanup shaderProgram VAO VBO EBO.

(** Running a program from process start: the exit status and the machine
    it leaves behind, or the machine reached when [fuel] tests of the loop
    condition were not enough. *)
Definition run (v : Variant) (w : World) (fuel : nat) : Outcome Z :=
  main v fuel w boot.

(** * Vocabulary of the statements *)

(** ** Names and states of a run *)

(** The object names of a run, in the order [main] asks for them. *)
Definition vertexShader_of (w : World) : Z := gen_name w 0.
Definition fragmentShader_of (w : World) : Z := gen_name w 1.
Definition shaderProgram_of (w : World) : Z := gen_name w 2.
Definition VAO_of (w : World) : Z := gen_name w 3.
Definition VBO_of (w : World) : Z := gen_name w 4.
Definition EBO_of (v : Variant) (w : World) : option Z :=
  match v with
  | Triangle => None
  | Rectangle => Some (gen_name w 5)
  end.

(** What [main] does before the loop once the window exists and the GL
    functions are loaded. *)
Definition startup (v : Variant) : M unit :=
  glfwInit ;;
  glfwWindowHint GLFW_CONTEXT_VERSION_MAJOR (HintInt 3) ;;
  glfwWindowHint GLFW_CONTEXT_VERSION_MINOR (HintInt 3) ;;
  glfwWindowHint GLFW_OPENGL_PROFILE GLFW_OPENGL_CORE_PROFILE ;;
  w <- ask ;;
  (if apple w
   then glfwWindowHint GLFW_OPENGL_FORWARD_COMPAT (HintBool GL_TRUE)
   else ret tt) ;;
  window <- glfwCreateWindow SCR_WIDTH SCR_HEIGHT (title v) 0 0 ;;
  glfwMakeContextCurrent window ;;
  glfwSetFramebufferSizeCallback window ;;
  gladLoadGLLoader ;;
  compile_shaders ;;
  upload_geometry v ;;
  ret tt.

(** The machine on which the render loop starts. *)
Definition ready (v : Variant) (w : World) : Machine :=
  machine_of (startup v w boot).

(** ** What the user does *)

Definition is_close (e : WindowEvent) : bool :=
  match e with
  | CloseRequested => true
  | FramebufferResized _ _ => false
  end.

Definition escape_pressed (f : FrameInput) : bool :=
  KeyAction_eqb (escape_key f) GLFW_PRESS.

Definition closes (f : FrameInput) : bool :=
  escape_pressed f || existsb is_close (events f).

Definition first_close (w : World) (k : nat) : Prop :=
  closes (frame_input w k) = true /\
  forall j, (j < k)%nat -> closes (frame_input w j) = false.

(** ** The calls a run makes *)

Definition resize_calls (es : list WindowEvent) : list Call :=
  flat_map (fun e => match e with
                     | CloseRequested => []
                     | FramebufferResized width height =>
                         [c_glViewport 0 0 width height]
                     end) es.

Definition draw_call_of (v : Variant) : Call :=
  match v with
  | Triangle => c_glDrawArrays GL_TRIANGLES 0 3
  | Rectangle => c_glDrawElements GL_TRIANGLES 6 GL_UNSIGNED_INT 0
  end.

Definition pass_calls (v : Variant) (window shaderProgram VAO : Z)
    (f : FrameInput) : list Call :=
  ([c_glfwGetKey window GLFW_KEY_ESCAPE] ++
   (if escape_pressed f then [c_glfwSetWindowShouldClose window true]
    else []) ++
   [c_glClearColor 0.1%Q 0.1%Q 0.15%Q 1.0%Q;
    c_glClear GL_COLOR_BUFFER_BIT;
    c_glUseProgram shaderProgram;
    c_glBindVertexArray VAO;
    draw_call_of v;
    c_glfwSwapBuffers window;
    c_glfwPollEvents] ++
   resize_calls (events f))%list.

Definition loop_calls (v : Variant) (window shaderProgram VAO : Z) (w : World)
    (first passes : nat) : list Call :=
  flat_map (fun j => c_glfwWindowShouldClose window ::
                     pass_calls v window shaderProgram VAO (frame_input w j))
    (seq first passes).

(** What gets printed of a driver log that was fetched into [infoLog] with
    a buffer size of 512. *)
Definition printed_log (log : list ascii) : string := c_str (take 511 log).

(** The calls and the text of one diagnostic. *)
Definition report_calls (failed : bool) (query : Call) (header : string)
    (log : list ascii) : list Call :=
  if failed
  then [query; c_cout (header ++ nl); c_cout_infoLog (printed_log log);
        c_cout nl]
  else [].

Definition report_text (failed : bool) (header : string) (log : list ascii)
  : string :=
  if failed then (header ++ nl) ++ printed_log log ++ nl else "".

Definition shader_calls (w : World) (n : nat) : list Call :=
  let vs := gen_name w n in
  let fs := gen_name w (S n) in
  let p := gen_name w (S (S n)) in
  ([c_glCreateShader GL_VERTEX_SHADER;
    c_glShaderSource vs 1 vertexShaderSource;
    c_glCompileShader vs;
    c_glGetShaderiv vs GL_COMPILE_STATUS] ++
   report_calls (shader_compile_status w vs =? 0)
     (c_glGetShaderInfoLog vs 512) "Vertex Shader Error:"
     (shader_info_log w vs) ++
   [c_glCreateShader GL_FRAGMENT_SHADER;
    c_glShaderSource fs 1 fragmentShaderSource;
    c_glCompileShader fs;
    c_glGetShaderiv fs GL_COMPILE_STATUS] ++
   report_calls (shader_compile_status w fs =? 0)
     (c_glGetShaderInfoLog fs 512) "Fragment Shader Error:"
     (shader_info_log w fs) ++
   [c_glCreateProgram;
    c_glAttachShader p vs;
    c_glAttachShader p fs;
    c_glLinkProgram p;
    c_glGetProgramiv p GL_LINK_STATUS] ++
   report_calls (program_link_status w p =? 0)
     (c_glGetProgramInfoLog p 512) "Shader Link Error:"
     (program_info_log w p) ++
   [c_glDeleteShader vs; c_glDeleteShader fs])%list.

Definition diagnostics (w : World) (n : nat) : string :=
  let vs := gen_name w n in
  let fs := gen_name w (S n) in
  let p := gen_name w (S (S n)) in
  report_text (shader_compile_status w vs =? 0) "Vertex Shader Error:"
    (shader_info_log w vs) ++
  report_text (shader_compile_status w fs =? 0) "Fragment Shader Error:"
    (shader_info_log w fs) ++
  report_text (program_link_status w p =? 0) "Shader Link Error:"
    (program_info_log w p).

Definition geometry_calls (v : Variant) (w : World) (n : nat) : list Call :=
  let VAO := gen_name w n in
  let VBO := gen_name w (S n) in
  let EBO := gen_name w (S (S n)) in
  match v with
  | Triangle =>
      [c_glGenVertexArrays 1; c_glGenBuffers 1;
       c_glBindVertexArray VAO;
       c_glBindBuffer GL_ARRAY_BUFFER VBO;
       c_glBufferData GL_ARRAY_BUFFER 36 (FloatData (vertices Triangle))
         GL_STATIC_DRAW;
       c_glVertexAttribPointer 0 3 GL_FLOAT GL_FALSE 12 0;
       c_glEnableVertexAttribArray 0;
       c_glBindBuffer GL_ARRAY_BUFFER 0;
       c_glBindVertexArray 0]
  | Rectangle =>
      [c_glGenVertexArrays 1; c_glGenBuffers 1; c_glGenBuffers 1;
       c_glBindVertexArray VAO;
       c_glBindBuffer GL_ARRAY_BUFFER VBO;
       c_glBufferData GL_ARRAY_BUFFER 48 (FloatData (vertices Rectangle))
         GL_STATIC_DRAW;
       c_glBindBuffer GL_ELEMENT_ARRAY_BUFFER EBO;
       c_glBufferData GL_ELEMENT_ARRAY_BUFFER 24 (UIntData indices)
         GL_STATIC_DRAW;
       c_glVertexAttribPointer 0 3 GL_FLOAT GL_FALSE 12 0;
       c_glEnableVertexAttribArray 0;
       c_glBindBuffer GL_ARRAY_BUFFER 0;
       c_glBindVertexArray 0]
  end.

Definition geometry_names (v : Variant) : nat :=
  match v with
  | Triangle => 2
  | Rectangle => 3
  end.

Definition cleanup_calls (shaderProgram VAO VBO : Z) (EBO : option Z)
  : list Call :=
  ([c_glDeleteVertexArrays 1 VAO; c_glDeleteBuffers 1 VBO] ++
   match EBO with
   | Some EBO => [c_glDeleteBuffers 1 EBO]
   | None => []
   end ++
   [c_glDeleteProgram shaderProgram; c_glfwTerminate])%list.

Definition opening_calls (v : Variant) (w : World) : list Call :=
  ([c_glfwInit;
    c_glfwWindowHint GLFW_CONTEXT_VERSION_MAJOR (HintInt 3);
    c_glfwWindowHint GLFW_CONTEXT_VERSION_MINOR (HintInt 3);
    c_glfwWindowHint GLFW_OPENGL_PROFILE GLFW_OPENGL_CORE_PROFILE] ++
   (if apple w
    then [c_glfwWindowHint GLFW_OPENGL_FORWARD_COMPAT (HintBool GL_TRUE)]
    else []) ++
   [c_glfwCreateWindow 800 600 (title v) 0 0])%list.

Definition startup_calls (v : Variant) (w : World) : list Call :=
  (opening_calls v w ++
   [c_glfwMakeContextCurrent (created_window w);
    c_glfwSetFramebufferSizeCallback (created_window w);
    c_gladLoadGLLoader] ++
   shader_calls w 0 ++ geometry_calls v w 3)%list.

Definition run_calls (v : Variant) (w : World) (passes : nat) : list Call :=
  (startup_calls v w ++
   loop_calls v (created_window w) (shaderProgram_of w) (VAO_of w) w 0 passes)%list.

Definition closing_calls (v : Variant) (w : World) : list Call :=
  c_glfwWindowShouldClose (created_window w) ::
  cleanup_calls (shaderProgram_of w) (VAO_of w) (VBO_of w) (EBO_of v w).

(** The calls of the render loop and of the cleanup, by kind. *)
Definition loop_call (c : Call) : bool :=
  match c with
  | c_glfwWindowShouldClose _ | c_glfwGetKey _ _
  | c_glfwSetWindowShouldClose _ _ | c_glClearColor _ _ _ _ | c_glClear _
  | c_glUseProgram _ | c_glBindVertexArray _ | c_glDrawArrays _ _ _
  | c_glDrawElements _ _ _ _ | c_glfwSwapBuffers _ | c_glfwPollEvents
  | c_glViewport _ _ _ _ => true
  | _ => false
  end.

Definition cleanup_call (c : Call) : bool :=
  match c with
  | c_glfwWindowShouldClose _ | c_glDeleteVertexArrays _ _
  | c_glDeleteBuffers _ _ | c_glDeleteProgram _ | c_glfwTerminate => true
  | _ => false
  end.



(** ** How machines are related *)

Definition stores (g : GLState) :=
  (shaders g, programs g, vertex_arrays g, buffers g).

Record untouched (m m' : Machine) : Prop := {
  same_glfw_initialized : glfw_initialized m' = glfw_initialized m;
  same_glad_loaded : glad_loaded m' = glad_loaded m;
  same_console : console m' = console m;
  same_infoLog : infoLog m' = infoLog m;
  same_overrun : overrun m' = overrun m;
  same_names_used : names_used m' = names_used m;
  same_stores : stores (gl m') = stores (gl m)
}.

(** Fields that only the window system and the render loop change. *)
Record same_session (m m' : Machine) : Prop := {
  same_window_state : window_state m' = window_state m;
  same_tick : tick m' = tick m;
  same_presented : presented m' = presented m;
  session_glfw_initialized : glfw_initialized m' = glfw_initialized m;
  session_glad_loaded : glad_loaded m' = glad_loaded m
}.

(** The state in which the render loop is entered and stays: the window
    exists, its resize responder is registered, and the process variables
    hold the pointer the world handed out. *)
Definition looping (w : World) (win : Z) (m : Machine) (closing : bool) : Prop :=
  created_window w = win /\
  exists x, window_state m = Some x /\ size_callback_set x = true /\
            should_close x = closing.

(** Nothing the program created is still a live object. *)
Definition released (v : Variant) (w : World) (m : Machine) : Prop :=
  programs (gl m) !! shaderProgram_of w = None /\
  vertex_arrays (gl m) !! VAO_of w = None /\
  buffers (gl m) !! VBO_of w = None /\
  forall EBO, EBO_of v w = Some EBO -> buffers (gl m) !! EBO = None.

(** ** Plane geometry *)

(** Points of the plane the primitives are drawn in: the [x] and [y] of a
    position, at [w = 1]. *)
Definition Point : Type := Q * Q.

Definition xy (p : vec3) : Point := (fst (fst p), snd (fst p)).

(** Twice the signed area of the triangle [a b p]: positive when [p] is to
    the left of the directed line from [a] to [b]. *)
Definition orient (a b p : Point) : Q :=
  (fst b - fst a) * (snd p - snd a) - (snd b - snd a) * (fst p - fst a).

Definition nonneg (q : Q) : bool := Qle_bool 0 q.
Definition nonpos (q : Q) : bool := Qle_bool q 0.
Definition positive_ (q : Q) : bool := negb (Qle_bool q 0).
Definition negative_ (q : Q) : bool := negb (Qle_bool 0 q).

(** Membership in the closed triangle, whichever way it winds. *)
Definition in_triangle (t : Triangle3) (p : Point) : bool :=
  let '(a, b, c) := t in
  let d1 := orient (xy a) (xy b) p in
  let d2 := orient (xy b) (xy c) p in
  let d3 := orient (xy c) (xy a) p in
  (nonneg d1 && nonneg d2 && nonneg d3) ||
  (nonpos d1 && nonpos d2 && nonpos d3).

(** Membership in the interior of the triangle. *)
Definition inside_triangle (t : Triangle3) (p : Point) : bool :=
  let '(a, b, c) := t in
  let d1 := orient (xy a) (xy b) p in
  let d2 := orient (xy b) (xy c) p in
  let d3 := orient (xy c) (xy a) p in
  (positive_ d1 && positive_ d2 && positive_ d3) ||
  (negative_ d1 && negative_ d2 && negative_ d3).

(** Membership in the closed convex quadrilateral with the given corners,
    taken in order around it. *)
Definition in_quad (a b c d : vec3) (p : Point) : bool :=
  let d1 := orient (xy a) (xy b) p in
  let d2 := orient (xy b) (xy c) p in
  let d3 := orient (xy c) (xy d) p in
  let d4 := orient (xy d) (xy a) p in
  (nonneg d1 && nonneg d2 && nonneg d3 && nonneg d4) ||
  (nonpos d1 && nonpos d2 && nonpos d3 && nonpos d4).

(** The inner product of [p - a] and [b - a]. *)
Definition along (a b p : Point) : Q :=
  (fst p - fst a) * (fst b - fst a) + (snd p - snd a) * (snd b - snd a).

(** Membership in the closed segment from [a] to [b]: on the line, and
    between the end points. *)
Definition on_segment (a b : vec3) (p : Point) : bool :=
  Qeq_bool (orient (xy a) (xy b) p) 0 &&
  Qle_bool 0 (along (xy a) (xy b) p) &&
  Qle_bool (along (xy a) (xy b) p) (along (xy a) (xy b) (xy b)).

(** The vertices of the rectangle program as [glVertexAttribPointer]
    describes them: three floats each, 12 bytes apart, from offset 0. *)
Definition corner (i : Z) : option vec3 :=
  fetch_vec3 (vertices Rectangle) (3 * sizeof_float) 0 i.

Definition top_right : vec3 := (0.5, 0.5, 0.0)%Q.
Definition bottom_right : vec3 := (0.5, -0.5, 0.0)%Q.
Definition bottom_left : vec3 := (-0.5, -0.5, 0.0)%Q.
Definition top_left : vec3 := (-0.5, 0.5, 0.0)%Q.

Definition first_triangle : Triangle3 := (top_right, bottom_right, top_left).
Definition second_triangle : Triangle3 := (bottom_right, bottom_left, top_left).

(** The one triangle of the triangle program, and what each program
    draws. *)
Definition the_triangle : Triangle3 :=
  ((-0.5, -0.5, 0.0), (0.5, -0.5, 0.0), (0.0, 0.5, 0.0))%Q.

Definition drawn_triangles (v : Variant) : list Triangle3 :=
  match v with
  | Triangle => [the_triangle]
  | Rectangle => [first_triangle; second_triangle]
  end.

(** ** The frames a run shows *)

(** The viewport after the resize events of one [glfwPollEvents] have been
    handed to the resize responder. *)
Definition resized (es : list WindowEvent) (vp : Rect) : Rect :=
  fold_left (fun vp e => match e with
                         | CloseRequested => vp
                         | FramebufferResized width height =>
                             (0, 0, width, height)
                         end) es vp.

(** What the draw call of a program assembles once vertex array [VAO] is
    bound. *)
Definition primitives (v : Variant) (arrays : gmap Z VertexArrayObj)
    (store : gmap Z BufferData) (VAO : Z) : option (list Triangle3) :=
  match v with
  | Triangle =>
      assemble_triangles (map (fetch_vertex arrays store VAO)
                            (array_indices 0 3))
  | Rectangle =>
      match element_indices arrays store VAO 6 0 with
      | Some l => assemble_triangles (map (fetch_vertex arrays store VAO) l)
      | None => None
      end
  end.

(** What one pass of the render loop puts on the screen, given the objects
    in [g] and the viewport. *)
Definition picture (v : Variant) (g : GLState) (shaderProgram VAO : Z)
    (vp : Rect) : Frame :=
  [Cleared (0.1, 0.1, 0.15, 1.0)%Q;
   Drawn (programs g !! shaderProgram) vp
     (primitives v (vertex_arrays g) (buffers g) VAO)].

(** The frames of [passes] passes, the first of them reading input number
    [first] and drawing into viewport [vp]. *)
Fixpoint loop_frames (v : Variant) (w : World) (g : GLState)
    (shaderProgram VAO : Z) (vp : Rect) (first passes : nat) : list Frame :=
  match passes with
  | O => []
  | S n =>
      picture v g shaderProgram VAO vp ::
      loop_frames v w g shaderProgram VAO
        (resized (events (frame_input w first)) vp) (S first) n
  end.

(** The viewport after those passes. *)
Fixpoint loop_viewport (w : World) (vp : Rect) (first passes : nat) : Rect :=
  match passes with
  | O => vp
  | S n => loop_viewport w (resized (events (frame_input w first)) vp)
             (S first) n
  end.

(** The GL never hands out the name [0], nor a buffer name that is in
    use. *)
Definition names_fresh (v : Variant) (w : World) : Prop :=
  VAO_of w <> 0 /\ VBO_of w <> 0 /\
  forall EBO, EBO_of v w = Some EBO -> EBO <> 0 /\ EBO <> VBO_of w.

(** The frames a run has shown after so many passes. *)
Definition run_frames (v : Variant) (w : World) (passes : nat) : list Frame :=
  loop_frames v w (gl (ready v w)) (shaderProgram_of w) (VAO_of w)
    (0, 0, fst (initial_framebuffer_size w), snd (initial_framebuffer_size w))
    0 passes.

(** ** Worlds *)

(** Everything works; the user resizes the window during the first pass and
    presses Escape during the second. *)
Definition calm_world : World :=
  {| apple := false;
     glfwInit_ok := true;
     created_window := 7;
     initial_framebuffer_size := (800, 600);
     glad_result := 1;
     gen_name := fun n => Z.of_nat (S n);
     shader_compile_status := fun _ => 1;
     program_link_status := fun _ => 1;
     shader_info_log := fun _ => [];
     program_info_log := fun _ => [];
     frame_input := fun n =>
       match n with
       | O => {| escape_key := GLFW_RELEASE;
                 events := [FramebufferResized 640 480] |}
       | S _ => {| escape_key := GLFW_PRESS; events := [] |}
       end;
     stack_garbage := fun _ => "x"%char |}.

(** [glfwCreateWindow] returns [NULL]. *)
Definition windowless_world : World :=
  {| apple := apple calm_world;
     glfwInit_ok := false;
     created_window := 0;
     initial_framebuffer_size := initial_framebuffer_size calm_world;
     glad_result := glad_result calm_world;
     gen_name := gen_name calm_world;
     shader_compile_status := shader_compile_status calm_world;
     program_link_status := program_link_status calm_world;
     shader_info_log := shader_info_log calm_world;
     program_info_log := program_info_log calm_world;
     frame_input := frame_input calm_world;
     stack_garbage := stack_garbage calm_world |}.

(** [gladLoadGLLoader] returns [0]. *)
Definition loaderless_world : World :=
  {| apple := apple calm_world;
     glfwInit_ok := glfwInit_ok calm_world;
     created_window := created_window calm_world;
     initial_framebuffer_size := initial_framebuffer_size calm_world;
     glad_result := 0;
     gen_name := gen_name calm_world;
     shader_compile_status := shader_compile_status calm_world;
     program_link_status := program_link_status calm_world;
     shader_info_log := shader_info_log calm_world;
     program_info_log := program_info_log calm_world;
     frame_input := frame_input calm_world;
     stack_garbage := stack_garbage calm_world |}.

(** The driver rejects the vertex shader and explains itself at length. *)
Definition broken_shader_world : World :=
  {| apple := apple calm_world;
     glfwInit_ok := glfwInit_ok calm_world;
     created_window := created_window calm_world;
     initial_framebuffer_size := initial_framebuffer_size calm_world;
     glad_result := glad_result calm_world;
     gen_name := gen_name calm_world;
     shader_compile_status := fun n => if n =? 1 then 0 else 1;
     program_link_status := program_link_status calm_world;
     shader_info_log := fun _ => repeat "e"%char 600;
     program_info_log := program_info_log calm_world;
     frame_input := frame_input calm_world;
     stack_garbage := stack_garbage calm_world |}.


Definition with_glfwInit_ok (ok : bool) (w : World) : World :=
  {| apple := apple w;
     glfwInit_ok := ok;
     created_window := created_window w;
     initial_framebuffer_size := initial_framebuffer_size w;
     glad_result := glad_result w;
     gen_name := gen_name w;
     shader_compile_status := shader_compile_status w;
     program_link_status := program_link_status w;
     shader_info_log := shader_info_log w;
     program_info_log := program_info_log w;
     frame_input := frame_input w;
     stack_garbage := stack_garbage w |}.


(** ** Comparing runs *)

Definition blur (m : Machine) : Machine :=
  set_glfw_initialized false (set_infoLog [] m).

Definition blur_outcome {A} (o : Outcome A) : Outcome A :=
  match o with
  | Finished a m => Finished a (blur m)
  | Running m => Running (blur m)
  end.

Definition sim {A} (w w' : World) (c c' : M A) : Prop :=
  forall m m', blur m = blur m' ->
               blur_outcome (c w m) = blur_outcome (c' w' m').

Definition status_of (o : Outcome Z) : option Z :=
  match o with
  | Finished status _ => Some status
  | Running _ => None
  end.

(** What can be seen of a run from outside: whether and how [main]
    returned, the calls made, the console, the frames shown, the state of
    the GL and of the window. *)
Definition observable (o : Outcome Z)
  : option Z * list Call * string * list Frame * GLState * option Window :=
  (status_of o, calls (machine_of o), console (machine_of o),
   presented (machine_of o), gl (machine_of o), window_state (machine_of o)).

(** ** Objects and calls of the setup sections *)


(** The program object after both stages were compiled, attached and
    linked. *)
Definition linked_program (w : World) (vertexShader fragmentShader
    shaderProgram : Z) : ProgramObj :=
  {| pr_attached := [vertexShader; fragmentShader];
     pr_stages :=
       [{| sh_type := GL_VERTEX_SHADER; sh_source := vertexShaderSource;
           sh_status := Some (shader_compile_status w vertexShader) |};
        {| sh_type := GL_FRAGMENT_SHADER; sh_source := fragmentShaderSource;
           sh_status := Some (shader_compile_status w fragmentShader) |}];
     pr_status := Some (program_link_status w shaderProgram) |}.

(** The GL gave the two shaders and the program names that are not [0], and
    the shaders two different ones. *)
Definition shader_names_fresh (w : World) : Prop :=
  vertexShader_of w <> 0 /\ fragmentShader_of w <> 0 /\
  vertexShader_of w <> fragmentShader_of w /\ shaderProgram_of w <> 0.

(** The viewport in which pass [j] of a run draws. *)
Definition viewport_before (w : World) (j : nat) : Rect :=
  loop_viewport w
    (0, 0, fst (initial_framebuffer_size w), snd (initial_framebuffer_size w))
    0 j.

(** The GL context inside the render loop: the context [g] the loop was
    entered with, except for what a pass sets.  These are the clear colour,
    the program in use, the bound vertex array, the back buffer, which holds
    the frame drawn last, in viewport [shown], and the viewport [vp] the
    resize responder left. *)
Definition loop_state (v : Variant) (shaderProgram VAO : Z)
    (shown vp : Rect) (g : GLState) : GLState :=
  set_viewport vp
    (set_back_buffer (picture v g shaderProgram VAO shown)
       (set_vertex_array_binding VAO
          (set_current_program shaderProgram
             (set_clear_color (0.1, 0.1, 0.15, 1.0)%Q g)))).

(** Calls into the GL, as opposed to GLFW, GLAD and the console. *)
Definition gl_call (c : Call) : bool :=
  match c with
  | c_glfwInit | c_glfwWindowHint _ _ | c_glfwCreateWindow _ _ _ _ _
  | c_glfwTerminate | c_glfwMakeContextCurrent _
  | c_glfwSetFramebufferSizeCallback _ | c_gladLoadGLLoader | c_cout _
  | c_cout_infoLog _ | c_glfwWindowShouldClose _ | c_glfwGetKey _ _
  | c_glfwSetWindowShouldClose _ _ | c_glfwSwapBuffers _
  | c_glfwPollEvents => false
  | _ => true
  end.

Definition is_close_request (c : Call) : bool :=
  match c with
  | c_glfwSetWindowShouldClose _ _ => true
  | _ => false
  end.

(** The calls of the cleanup section that delete a GL object. *)
Definition releases (c : Call) : bool :=
  match c with
  | c_glDeleteVertexArrays _ _ | c_glDeleteBuffers _ _ | c_glDeleteProgram _ =>
      true
  | _ => false
  end.

(** * Reasoning about runs *)

(** Symbolic execution of straight-line code: the monad, the library
    operations and the record plumbing are unfolded; finite maps, lists and
    the recursive parts of the programs are left alone. *)
Ltac exec :=
  cbv [bind ret ask get modify out_of_fuel call modify_gl modify_window
       cout cout_infoLog glfwInit glfwWindowHint glfwCreateWindow glfwTerminate
       glfwMakeContextCurrent glfwSetFramebufferSizeCallback
       glfwWindowShouldClose glfwSetWindowShouldClose glfwGetKey
       gladLoadGLLoader fresh_name glCreateShader glShaderSource
       glCompileShader glGetShaderiv glGetShaderInfoLog glCreateProgram
       glAttachShader glLinkProgram glGetProgramiv glGetProgramInfoLog
       glDeleteShader glDeleteProgram glGenVertexArrays glGenBuffers
       glDeleteVertexArrays glDeleteBuffers glBindVertexArray glBindBuffer
       glBufferData glVertexAttribPointer glEnableVertexAttribArray glViewport
       glClearColor glClear glUseProgram glDrawArrays glDrawElements
       glfwSwapBuffers processInput framebuffer_size_callback deliver
       glfwPollEvents declare_infoLog draw_call machine_of boot
       set_glfw_initialized set_window_state set_glad_loaded set_gl
       set_console set_calls set_presented set_infoLog set_overrun set_tick
       set_names_used store_bytes
       glfw_initialized window_state glad_loaded gl console calls presented
       infoLog overrun tick names_used
       should_close context_current size_callback_set
       fmap option_fmap option_map
       draw bound_buffer gl_initial
       set_viewport set_clear_color set_current_program
       set_vertex_array_binding set_array_buffer_binding set_shaders
       set_programs set_vertex_arrays set_buffers set_back_buffer
       viewport clear_color current_program vertex_array_binding
       array_buffer_binding shaders programs vertex_arrays buffers
       back_buffer].

Ltac exec_in H :=
  cbv [bind ret ask get modify out_of_fuel call modify_gl modify_window
       cout cout_infoLog glfwInit glfwWindowHint glfwCreateWindow glfwTerminate
       glfwMakeContextCurrent glfwSetFramebufferSizeCallback
       glfwWindowShouldClose glfwSetWindowShouldClose glfwGetKey
       gladLoadGLLoader fresh_name glCreateShader glShaderSource
       glCompileShader glGetShaderiv glGetShaderInfoLog glCreateProgram
       glAttachShader glLinkProgram glGetProgramiv glGetProgramInfoLog
       glDeleteShader glDeleteProgram glGenVertexArrays glGenBuffers
       glDeleteVertexArrays glDeleteBuffers glBindVertexArray glBindBuffer
       glBufferData glVertexAttribPointer glEnableVertexAttribArray glViewport
       glClearColor glClear glUseProgram glDrawArrays glDrawElements
       glfwSwapBuffers processInput framebuffer_size_callback deliver
       glfwPollEvents declare_infoLog draw_call machine_of boot
       set_glfw_initialized set_window_state set_glad_loaded set_gl
       set_console set_calls set_presented set_infoLog set_overrun set_tick
       set_names_used store_bytes
       glfw_initialized window_state glad_loaded gl console calls presented
       infoLog overrun tick names_used
       should_close context_current size_callback_set
       fmap option_fmap option_map
       draw bound_buffer gl_initial
       set_viewport set_clear_color set_current_program
       set_vertex_array_binding set_array_buffer_binding set_shaders
       set_programs set_vertex_arrays set_buffers set_back_buffer
       viewport clear_color current_program vertex_array_binding
       array_buffer_binding shaders programs vertex_arrays buffers
       back_buffer] in H.

(** Reading a field off a machine that is written out. *)
Ltac fields :=
  cbn [glfw_initialized window_state glad_loaded gl console calls presented
       infoLog overrun tick names_used machine_of
       should_close context_current size_callback_set] in *.

Ltac conjuncts := repeat match goal with |- _ /\ _ => split end.

Lemma untouched_refl m : untouched m m.
Proof. by split. Qed.

Lemma untouched_trans m1 m2 m3 :
  untouched m1 m2 -> untouched m2 m3 -> untouched m1 m3.
Proof. intros [] []; split; congruence. Qed.

Lemma deliver_all_spec win w es : forall m x,
  window_state m = Some x -> size_callback_set x = true ->
  exists m',
    deliver_all win es w m = Finished tt m' /\
    calls m' = (calls m ++ resize_calls es)%list /\
    window_state m' =
      Some {| should_close := should_close x || existsb is_close es;
              context_current := context_current x;
              size_callback_set := true |} /\
    tick m' = tick m /\ presented m' = presented m /\
    viewport (gl m') = resized es (viewport (gl m)) /\
    untouched m m'.
Proof.
  induction es as [|e es IH]; intros m x Hw Hc.
  - exists m. cbn [deliver_all ret resize_calls flat_map existsb].
    rewrite app_nil_r, orb_false_r, Hw, <- Hc. by destruct x.
  - destruct m as [? ? ? g ? ? ? ? ? ? ?], g, x; cbn in Hw, Hc; subst.
    cbn [deliver_all]. destruct e as [|width height].
    + unfold bind at 1. exec.
      edestruct IH as (m' & -> & Hcalls & Hwin & Htick & Hpres & Hvp & Hun);
        [reflexivity | reflexivity |].
      exists m'.
      exec_in Hcalls. exec_in Hwin. exec_in Htick. exec_in Hpres. exec_in Hvp.
      cbn [resize_calls resized fold_left flat_map existsb is_close app].
      rewrite Hcalls, Hwin, Htick, Hpres, Hvp, orb_true_r.
      conjuncts; try reflexivity. destruct Hun. by split.
    + unfold bind at 1. exec.
      edestruct IH as (m' & -> & Hcalls & Hwin & Htick & Hpres & Hvp & Hun);
        [reflexivity | reflexivity |].
      exists m'.
      exec_in Hcalls. exec_in Hwin. exec_in Htick. exec_in Hpres. exec_in Hvp.
      cbn [resize_calls resized fold_left flat_map existsb is_close app orb].
      rewrite Hcalls, Hwin, Htick, Hpres, Hvp, <- app_assoc.
      conjuncts; try reflexivity. destruct Hun. by split.
Qed.

Lemma loop_body_spec v win p vao w m x :
  window_state m = Some x -> size_callback_set x = true ->
  created_window w = win ->
  exists m',
    loop_body v win p vao w m = Finished tt m' /\
    calls m' = (calls m ++ pass_calls v win p vao (frame_input w (tick m)))%list /\
    window_state m' =
      Some {| should_close := should_close x || closes (frame_input w (tick m));
              context_current := context_current x;
              size_callback_set := true |} /\
    tick m' = S (tick m) /\
    presented m' =
      (presented m ++ [picture v (gl m) p vao (viewport (gl m))])%list /\
    viewport (gl m') =
      resized (events (frame_input w (tick m))) (viewport (gl m)) /\
    untouched m m'.
Proof.
  intros Hw Hc Hwin.
  destruct m as [? ? ? g ? ? ? ? ? ? ?], g, x; cbn in Hw, Hc; subst.
  unfold loop_body, pass_calls, closes, escape_pressed, picture, primitives.
  fields.
  destruct (KeyAction_eqb (escape_key (frame_input w tick0)) GLFW_PRESS) eqn:Hk;
    destruct v; exec; rewrite Hk;
    (match goal with
     | |- context [deliver_all ?a ?b ?c ?M] =>
         edestruct (deliver_all_spec a c b M)
           as (m' & E & Hcalls & Hwin & Htick & Hpres & Hvp & Hun);
         [reflexivity | reflexivity |]
     end);
    rewrite E; destruct m' as [? ? ? g' ? ? ? ? ? ? ?];
    destruct Hun as [? ? ? ? ? ? Hst];
    fields; cbn [viewport] in Hvp; subst;
    (eexists; split; [reflexivity|]);
    fields; cbn [orb viewport programs vertex_arrays buffers];
    rewrite ?orb_true_r, ?orb_false_r, <- ?app_assoc;
    cbn [app];
    (conjuncts; try reflexivity; try assumption);
    by split.
Qed.

Lemma loop_calls_S v win p vao w i n :
  loop_calls v win p vao w i (S n) =
  (c_glfwWindowShouldClose win :: pass_calls v win p vao (frame_input w i) ++
   loop_calls v win p vao w (S i) n)%list.
Proof. reflexivity. Qed.

Lemma picture_stores v g g' p vao vp :
  stores g' = stores g -> picture v g' p vao vp = picture v g p vao vp.
Proof. unfold stores, picture. intros [= _ -> -> ->]. reflexivity. Qed.

Lemma loop_frames_stores v w g g' p vao : forall n vp i,
  stores g' = stores g ->
  loop_frames v w g' p vao vp i n = loop_frames v w g p vao vp i n.
Proof.
  induction n as [|n IH]; intros vp i H; cbn [loop_frames]; [reflexivity|].
  by rewrite (picture_stores v g g'), IH.
Qed.

Lemma render_loop_exit v win p vao w fuel m :
  looping w win m true ->
  exists m',
    render_loop (S fuel) v win p vao w m = Finished tt m' /\
    calls m' = (calls m ++ [c_glfwWindowShouldClose win])%list /\
    window_state m' = window_state m /\ tick m' = tick m /\
    presented m' = presented m /\ gl m' = gl m /\ untouched m m'.
Proof.
  intros (Hwin & x & Hw & Hc & Hs). destruct m, x; cbn in Hw, Hc, Hs; subst.
  cbn [render_loop]. exec. eexists. split; [reflexivity|].
  repeat split; reflexivity.
Qed.

Lemma render_loop_pass v win p vao w fuel m :
  looping w win m false ->
  exists m',
    render_loop (S fuel) v win p vao w m = render_loop fuel v win p vao w m' /\
    calls m' = (calls m ++ c_glfwWindowShouldClose win ::
                  pass_calls v win p vao (frame_input w (tick m)))%list /\
    looping w win m' (closes (frame_input w (tick m))) /\
    tick m' = S (tick m) /\
    presented m' =
      (presented m ++ [picture v (gl m) p vao (viewport (gl m))])%list /\
    viewport (gl m') =
      resized (events (frame_input w (tick m))) (viewport (gl m)) /\
    untouched m m'.
Proof.
  intros (Hwin & x & Hw & Hc & Hs).
  edestruct (loop_body_spec v win p vao w
               (set_calls (calls m ++ [c_glfwWindowShouldClose win]) m) x)
    as (m' & E & Hcalls & Hw' & Htick & Hpres & Hvp & Hun);
    [| exact Hc | exact Hwin |].
  { destruct m; exact Hw. }
  exists m'. split.
  - cbn [render_loop].
    cbv [bind call modify get ret glfwWindowShouldClose] in E |- *.
    cbn [window_state set_calls]. rewrite Hw, Hs, E. reflexivity.
  - destruct m; cbn in *. rewrite Hcalls, <- app_assoc.
    conjuncts; try done; [|destruct Hun; by split].
    split; [exact Hwin|]. eexists. split; [exact Hw'|]. cbn.
    rewrite Hs. by split.
Qed.


(** The loop with too little fuel: it is still running after [fuel]
    passes. *)
Lemma render_loop_runs v win p vao w : forall fuel m,
  looping w win m false ->
  (forall j, (S j < fuel)%nat -> closes (frame_input w (tick m + j)) = false) ->
  exists m',
    render_loop fuel v win p vao w m = Running m' /\
    calls m' = (calls m ++ loop_calls v win p vao w (tick m) fuel)%list /\
    looping w win m'
      (match fuel with
       | O => false
       | S n => closes (frame_input w (tick m + n))
       end) /\
    tick m' = (tick m + fuel)%nat /\
    presented m' =
      (presented m ++
       loop_frames v w (gl m) p vao (viewport (gl m)) (tick m) fuel)%list /\
    viewport (gl m') = loop_viewport w (viewport (gl m)) (tick m) fuel /\
    untouched m m'.
Proof.
  induction fuel as [|fuel IH]; intros m Hl Hopen.
  - exists m.
    cbn [render_loop out_of_fuel loop_calls flat_map seq loop_frames
         loop_viewport].
    rewrite !app_nil_r, !Nat.add_0_r.
    conjuncts; try reflexivity; [exact Hl | apply untouched_refl].
  - destruct (render_loop_pass v win p vao w fuel m Hl)
      as (m1 & -> & Hc1 & Hl1 & Ht1 & Hp1 & Hv1 & Hu1).
    destruct fuel as [|fuel].
    + exists m1.
      cbn [render_loop out_of_fuel loop_calls flat_map seq loop_frames
           loop_viewport].
      rewrite Hc1, Ht1, Hp1, Hv1, app_nil_r, Nat.add_0_r.
      conjuncts; try lia; try reflexivity; [exact Hl1 | exact Hu1].
    + pose proof (Hopen 0%nat ltac:(lia)) as H0.
      rewrite Nat.add_0_r in H0. rewrite H0 in Hl1.
      destruct (IH m1 Hl1) as (m2 & -> & Hc2 & Hl2 & Ht2 & Hp2 & Hv2 & Hu2).
      * intros j Hj. rewrite Ht1. replace (S (tick m) + j)%nat
          with (tick m + S j)%nat by lia. apply Hopen. lia.
      * exists m2. split; [reflexivity|].
        rewrite Hc2, Hp2, Hv2, Ht2, Hc1, Hp1, Hv1, !Ht1,
          (loop_calls_S _ _ _ _ _ _ (S fuel)).
        rewrite (loop_frames_stores v w (gl m) (gl m1))
          by apply Hu1.
        cbn [loop_frames loop_viewport].
        rewrite <- ?app_assoc. cbn [app]. rewrite <- ?app_assoc.
        rewrite Ht1 in Hl2.
        replace (S (tick m) + fuel)%nat with (tick m + S fuel)%nat in Hl2
          by lia.
        conjuncts; try lia; try reflexivity;
          [exact Hl2 | eapply untouched_trans; eassumption].
Qed.

(** The loop with enough fuel: it leaves after the first pass that sets the
    close flag. *)
Lemma render_loop_finishes v win p vao w k fuel m :
  looping w win m false ->
  (forall j, (j < k)%nat -> closes (frame_input w (tick m + j)) = false) ->
  closes (frame_input w (tick m + k)) = true ->
  (k + 2 <= fuel)%nat ->
  exists m',
    render_loop fuel v win p vao w m = Finished tt m' /\
    calls m' = (calls m ++ loop_calls v win p vao w (tick m) (S k) ++
                [c_glfwWindowShouldClose win])%list /\
    looping w win m' true /\
    tick m' = (tick m + S k)%nat /\
    presented m' =
      (presented m ++
       loop_frames v w (gl m) p vao (viewport (gl m)) (tick m) (S k))%list /\
    viewport (gl m') = loop_viewport w (viewport (gl m)) (tick m) (S k) /\
    untouched m m'.
Proof.
  revert fuel m. induction k as [|k IH]; intros fuel m Hl Hopen Hclose Hfuel.
  - destruct fuel as [|[|fuel]]; try lia.
    destruct (render_loop_pass v win p vao w (S fuel) m Hl)
      as (m1 & -> & Hc1 & Hl1 & Ht1 & Hp1 & Hv1 & Hu1).
    rewrite Nat.add_0_r in Hclose. rewrite Hclose in Hl1.
    destruct (render_loop_exit v win p vao w fuel m1 Hl1)
      as (m2 & -> & Hc2 & Hw2 & Ht2 & Hp2 & Hg2 & Hu2).
    exists m2. split; [reflexivity|].
    rewrite Hc2, Hc1, Ht2, Ht1, Hp2, Hp1, Hg2, Hv1, loop_calls_S.
    cbn [loop_calls flat_map seq loop_frames loop_viewport].
    rewrite app_nil_r, <- !app_assoc.
    conjuncts; try lia; try reflexivity;
      [|eapply untouched_trans; eassumption].
    destruct Hl1 as (? & x & ? & ? & ?). split; [done|]. exists x.
    by rewrite Hw2.
  - destruct fuel as [|fuel]; try lia.
    destruct (render_loop_pass v win p vao w fuel m Hl)
      as (m1 & -> & Hc1 & Hl1 & Ht1 & Hp1 & Hv1 & Hu1).
    pose proof (Hopen 0%nat ltac:(lia)) as H0.
    rewrite Nat.add_0_r in H0. rewrite H0 in Hl1.
    destruct (IH fuel m1 Hl1) as (m2 & -> & Hc2 & Hl2 & Ht2 & Hp2 & Hv2 & Hu2).
    + intros j Hj. rewrite Ht1. replace (S (tick m) + j)%nat
        with (tick m + S j)%nat by lia. apply Hopen. lia.
    + rewrite Ht1. replace (S (tick m) + k)%nat
        with (tick m + S k)%nat by lia. exact Hclose.
    + lia.
    + exists m2. split; [reflexivity|].
      rewrite Hc2, Hp2, Hv2, Ht2, Hc1, Hp1, Hv1, !Ht1,
        (loop_calls_S _ _ _ _ _ _ (S k)).
      rewrite (loop_frames_stores v w (gl m) (gl m1))
        by apply Hu1.
      cbn [loop_frames loop_viewport].
      rewrite <- ?app_assoc. cbn [app]. rewrite <- ?app_assoc.
      conjuncts; try lia; try reflexivity;
        [exact Hl2 | eapply untouched_trans; eassumption].
Qed.

(** ** The array [infoLog] *)

Lemma append_assoc (a b c : string) : (a ++ b) ++ c = a ++ (b ++ c).
Proof.
  induction a as [|x a IH]; [reflexivity|].
  change (String x ((a ++ b) ++ c) = String x (a ++ (b ++ c))).
  by rewrite IH.
Qed.

Lemma append_nil_r (a : string) : a ++ "" = a.
Proof.
  induction a as [|x a IH]; [reflexivity|].
  change (String x (a ++ "") = String x a). by rewrite IH.
Qed.

Lemma c_str_app_NUL (l r : list ascii) : c_str (l ++ NUL :: r) = c_str l.
Proof.
  induction l as [|c l IH]; cbn [app c_str].
  - reflexivity.
  - destruct (Ascii.eqb c NUL); [reflexivity | by rewrite IH].
Qed.



Lemma log_bytes_512 log : log_bytes 512 log = (take 511 log ++ [NUL])%list.
Proof. reflexivity. Qed.

Lemma length_log_bytes_512 log : (length (log_bytes 512 log) <= 512)%nat.
Proof. rewrite log_bytes_512, length_app, length_take. cbn [length]. lia. Qed.

Lemma length_overwrite (bytes buf : list ascii) :
  length (overwrite bytes buf) = length buf.
Proof.
  unfold overwrite. rewrite length_take, length_app, length_drop. lia.
Qed.

Lemma overwrite_fits (buf log : list ascii) :
  length buf = 512%nat ->
  (length buf <? length (log_bytes 512 log))%nat = false.
Proof.
  intros ->. apply Nat.ltb_ge, length_log_bytes_512.
Qed.

Lemma overwrite_log (buf log : list ascii) :
  length buf = 512%nat ->
  exists rest, overwrite (log_bytes 512 log) buf
               = (take 511 log ++ NUL :: rest)%list.
Proof.
  intros Hb. unfold overwrite. rewrite log_bytes_512, Hb.
  pose proof (length_take log 511) as Hl.
  rewrite take_app, take_ge by (rewrite length_app; cbn [length]; lia).
  rewrite <- app_assoc. cbn [app]. eauto.
Qed.

Lemma c_str_overwrite (buf log : list ascii) :
  length buf = 512%nat ->
  c_str (overwrite (log_bytes 512 log) buf) = printed_log log.
Proof.
  intros Hb. destruct (overwrite_log buf log Hb) as [rest ->].
  apply c_str_app_NUL.
Qed.

Lemma terminated_overwrite (buf log : list ascii) :
  length buf = 512%nat ->
  terminated (overwrite (log_bytes 512 log) buf) = true.
Proof.
  intros Hb. destruct (overwrite_log buf log Hb) as [rest ->].
  unfold terminated. rewrite existsb_app. cbn [existsb].
  rewrite Ascii.eqb_refl. apply orb_true_iff. right. reflexivity.
Qed.

Lemma length_declared (w : World) :
  length (map (stack_garbage w) (seq 0 512)) = 512%nat.
Proof. by rewrite length_map, length_seq. Qed.

(** ** The sections of [main], one by one *)

Ltac buffer_facts :=
  rewrite ?c_str_overwrite, ?terminated_overwrite, ?overwrite_fits
    by (rewrite ?length_overwrite; apply length_declared).

Lemma compile_shaders_spec w m :
  exists m',
    compile_shaders w m = Finished (gen_name w (S (S (names_used m)))) m' /\
    calls m' = (calls m ++ shader_calls w (names_used m))%list /\
    console m' = console m ++ diagnostics w (names_used m) /\
    overrun m' = overrun m /\
    length (infoLog m') = 512%nat /\
    names_used m' = S (S (S (names_used m))) /\
    viewport (gl m') = viewport (gl m) /\
    vertex_arrays (gl m') = vertex_arrays (gl m) /\
    buffers (gl m') = buffers (gl m) /\
    same_session m m'.
Proof.
  destruct m as [? ? ? g ? ? ? ? ? ? n]; destruct g.
  cbn [calls console overrun names_used gl viewport vertex_arrays buffers].
  unfold compile_shaders, shader_calls, diagnostics.
  destruct (shader_compile_status w (gen_name w n) =? 0) eqn:E1,
    (shader_compile_status w (gen_name w (S n)) =? 0) eqn:E2,
    (program_link_status w (gen_name w (S (S n))) =? 0) eqn:E3;
    exec; rewrite E1; exec; rewrite E2; exec; rewrite E3; exec;
    (eexists; split; [reflexivity|]); exec; buffer_facts;
    unfold report_calls, report_text;
    rewrite ?orb_false_r, ?length_overwrite, ?length_declared,
      ?append_nil_r, <- ?app_assoc, ?append_assoc;
    cbn [app]; by repeat split.
Qed.

Lemma upload_geometry_spec v w m :
  exists m',
    upload_geometry v w m =
      Finished (gen_name w (names_used m), gen_name w (S (names_used m)),
                match v with
                | Triangle => None
                | Rectangle => Some (gen_name w (S (S (names_used m))))
                end) m' /\
    calls m' = (calls m ++ geometry_calls v w (names_used m))%list /\
    console m' = console m /\
    overrun m' = overrun m /\
    infoLog m' = infoLog m /\
    names_used m' = (geometry_names v + names_used m)%nat /\
    viewport (gl m') = viewport (gl m) /\
    shaders (gl m') = shaders (gl m) /\
    programs (gl m') = programs (gl m) /\
    same_session m m'.
Proof.
  destruct m as [? ? ? g ? ? ? ? ? ? n]; destruct g.
  cbn [calls console overrun names_used gl viewport shaders programs infoLog].
  unfold upload_geometry, geometry_calls.
  destruct v; exec; (eexists; split; [reflexivity|]); exec;
    rewrite <- ?app_assoc; cbn [app]; by repeat split.
Qed.

Lemma cleanup_spec p vao vbo ebo w m :
  exists m',
    cleanup p vao vbo ebo w m = Finished 0 m' /\
    calls m' = (calls m ++ cleanup_calls p vao vbo ebo)%list /\
    console m' = console m /\
    overrun m' = overrun m /\
    infoLog m' = infoLog m /\
    presented m' = presented m /\
    tick m' = tick m /\
    window_state m' = None /\
    glfw_initialized m' = false /\
    shaders (gl m') = shaders (gl m) /\
    programs (gl m') = delete p (programs (gl m)) /\
    vertex_arrays (gl m') = delete vao (vertex_arrays (gl m)) /\
    buffers (gl m') =
      match ebo with
      | Some e => delete e (delete vbo (buffers (gl m)))
      | None => delete vbo (buffers (gl m))
      end.
Proof.
  destruct m as [? ? ? g ? ? ? ? ? ? n]; destruct g.
  unfold cleanup, cleanup_calls.
  destruct ebo; exec; (eexists; split; [reflexivity|]); exec;
    rewrite <- ?app_assoc; cbn [app]; by repeat split.
Qed.

(** ** From process start to the render loop *)

Lemma run_ready v w fuel :
  created_window w <> 0 -> glad_result w <> 0 ->
  run v w fuel =
  (render_loop fuel v (created_window w) (shaderProgram_of w) (VAO_of w) ;;
   cleanup (shaderProgram_of w) (VAO_of w) (VBO_of w) (EBO_of v w))
    w (ready v w).
Proof.
  intros Hwin%Z.eqb_neq Hglad%Z.eqb_neq.
  unfold run, main, ready, startup, shaderProgram_of, VAO_of, VBO_of, EBO_of.
  destruct (apple w) eqn:Ha; exec; rewrite Ha; exec; rewrite Hwin; exec;
    rewrite Hglad; exec;
    (match goal with
     | |- context [compile_shaders w ?M] =>
         destruct (compile_shaders_spec w M)
           as (m1 & -> & _ & _ & _ & _ & Hn1 & _)
     end);
    (match goal with
     | |- context [upload_geometry v w ?M] =>
         destruct (upload_geometry_spec v w M) as (m2 & -> & _)
     end);
    fields; rewrite Hn1; destruct v; reflexivity.
Qed.

Lemma startup_spec v w :
  created_window w <> 0 ->
  exists m,
    startup v w boot = Finished tt m /\
    calls m = startup_calls v w /\
    console m = diagnostics w 0 /\
    looping w (created_window w) m false /\
    tick m = 0%nat /\
    presented m = [] /\
    overrun m = false /\
    length (infoLog m) = 512%nat /\
    glfw_initialized m = glfwInit_ok w /\
    glad_loaded m = negb (glad_result w =? 0) /\
    viewport (gl m) =
      (0, 0, fst (initial_framebuffer_size w),
       snd (initial_framebuffer_size w)).
Proof.
  intros Hwin%Z.eqb_neq.
  unfold startup, startup_calls, opening_calls.
  destruct (apple w) eqn:Ha; exec; rewrite Ha; exec; rewrite ?Hwin; exec;
    (match goal with
     | |- context [compile_shaders w ?M] =>
         destruct (compile_shaders_spec w M)
           as (m1 & -> & Hc1 & Ho1 & Hov1 & Hlen1 & Hn1 & Hv1 & _ & _ &
               [Hw1 Ht1 Hp1 Hi1 Hg1])
     end);
    (match goal with
     | |- context [upload_geometry v w ?M] =>
         destruct (upload_geometry_spec v w M)
           as (m2 & -> & Hc2 & Ho2 & Hov2 & Hlen2 & Hn2 & Hv2 & _ & _ &
               [Hw2 Ht2 Hp2 Hi2 Hg2])
     end);
    destruct m1 as [? ? ? g1 ? ? ? ? ? ? ?], m2 as [? ? ? g2 ? ? ? ? ? ? ?];
    destruct g1, g2; fields; cbn [viewport] in Hv1, Hv2; subst;
    (eexists; split; [reflexivity|]); exec;
    rewrite <- ?app_assoc; cbn [app];
    (conjuncts; try reflexivity; try assumption);
    (split; [reflexivity | eexists; by repeat split]).
Qed.

Lemma ready_spec v w :
  created_window w <> 0 ->
  calls (ready v w) = startup_calls v w /\
  console (ready v w) = diagnostics w 0 /\
  looping w (created_window w) (ready v w) false /\
  tick (ready v w) = 0%nat /\
  presented (ready v w) = [] /\
  overrun (ready v w) = false /\
  length (infoLog (ready v w)) = 512%nat /\
  glfw_initialized (ready v w) = glfwInit_ok w /\
  glad_loaded (ready v w) = negb (glad_result w =? 0) /\
  viewport (gl (ready v w)) =
    (0, 0, fst (initial_framebuffer_size w),
     snd (initial_framebuffer_size w)).
Proof.
  intros Hwin. unfold ready.
  destruct (startup_spec v w Hwin) as (m & -> & H). exact H.
Qed.

(** ** Whole runs *)

Lemma run_finishes v w k fuel :
  created_window w <> 0 -> glad_result w <> 0 ->
  first_close w k -> (k + 2 <= fuel)%nat ->
  exists m,
    run v w fuel = Finished 0 m /\
    calls m = (run_calls v w (S k) ++ closing_calls v w)%list /\
    console m = diagnostics w 0 /\
    overrun m = false /\
    length (infoLog m) = 512%nat /\
    presented m = run_frames v w (S k) /\
    window_state m = None /\
    glfw_initialized m = false /\
    released v w m.
Proof.
  intros Hwin Hglad [Hclose Hopen] Hfuel.
  rewrite run_ready by assumption.
  destruct (ready_spec v w Hwin)
    as (Hc & Ho & Hl & Ht & Hp & Hov & Hlen & _ & _ & Hv).
  destruct (render_loop_finishes v (created_window w) (shaderProgram_of w)
              (VAO_of w) w k fuel (ready v w) Hl)
    as (m1 & E1 & Hc1 & Hl1 & Ht1 & Hp1 & Hv1 & Hu1).
  { intros j Hj. rewrite Ht. apply Hopen, Hj. }
  { rewrite Ht. exact Hclose. }
  { exact Hfuel. }
  unfold bind. rewrite E1.
  destruct (cleanup_spec (shaderProgram_of w) (VAO_of w) (VBO_of w)
              (EBO_of v w) w m1)
    as (m2 & -> & Hc2 & Ho2 & Hov2 & Hi2 & Hp2 & Ht2 & Hw2 & Hg2 & _ & Hpr &
        Hva & Hbu).
  exists m2. destruct Hu1. unfold run_calls, closing_calls, run_frames.
  rewrite Hc2, Hc1, Hc, Ho2, Hov2, Hi2, Hp2, Hp1, Hp, Ht, Hv.
  rewrite <- ?app_assoc. cbn [app length].
  conjuncts; try reflexivity; try congruence.
  unfold released. rewrite Hpr, Hva, Hbu.
  conjuncts; try apply lookup_delete_eq.
  - destruct (EBO_of v w); [|apply lookup_delete_eq].
    rewrite lookup_delete. case_decide; [reflexivity | apply lookup_delete_eq].
  - intros e ->. apply lookup_delete_eq.
Qed.

Lemma run_runs v w fuel :
  created_window w <> 0 -> glad_result w <> 0 ->
  (forall j, (S j < fuel)%nat -> closes (frame_input w j) = false) ->
  exists m,
    run v w fuel = Running m /\
    calls m = run_calls v w fuel /\
    console m = diagnostics w 0 /\
    overrun m = false /\
    length (infoLog m) = 512%nat /\
    presented m = run_frames v w fuel /\
    looping w (created_window w) m
      (match fuel with
       | O => false
       | S n => closes (frame_input w n)
       end) /\
    stores (gl m) = stores (gl (ready v w)).
Proof.
  intros Hwin Hglad Hopen.
  rewrite run_ready by assumption.
  destruct (ready_spec v w Hwin)
    as (Hc & Ho & Hl & Ht & Hp & Hov & Hlen & _ & _ & Hv).
  destruct (render_loop_runs v (created_window w) (shaderProgram_of w)
              (VAO_of w) w fuel (ready v w) Hl)
    as (m1 & E1 & Hc1 & Hl1 & Ht1 & Hp1 & Hv1 & Hu1).
  { intros j Hj. rewrite Ht. apply Hopen, Hj. }
  unfold bind. rewrite E1. exists m1. destruct Hu1.
  unfold run_calls, run_frames.
  rewrite Ht in Hl1. rewrite Hc1, Hc, Hp1, Hp, Ht, Hv.
  conjuncts; try reflexivity; try congruence. exact Hl1.
Qed.

(** Either some pass within reach of the fuel sets the close flag first, or
    none of them does. *)
Lemma close_within (w : World) (fuel : nat) :
  (exists k, first_close w k /\ (k + 2 <= fuel)%nat) \/
  (forall j, (S j < fuel)%nat -> closes (frame_input w j) = false).
Proof.
  induction fuel as [|fuel IH]; [right; lia|].
  destruct IH as [(k & Hk & Hle)|Hopen]; [left; exists k; split; [done|lia]|].
  destruct fuel as [|fuel]; [right; lia|].
  destruct (closes (frame_input w fuel)) eqn:E.
  - left. exists fuel. split; [split; [done|]|lia].
    intros j Hj. apply Hopen. lia.
  - right. intros j Hj. destruct (decide (j = fuel)) as [->|]; [done|].
    apply Hopen. lia.
Qed.

Lemma run_shape v w fuel :
  created_window w <> 0 -> glad_result w <> 0 ->
  exists passes tail,
    calls (machine_of (run v w fuel)) = (run_calls v w passes ++ tail)%list /\
    (tail = [] \/ tail = closing_calls v w) /\
    ((0 < fuel)%nat -> (0 < passes)%nat) /\
    console (machine_of (run v w fuel)) = diagnostics w 0 /\
    overrun (machine_of (run v w fuel)) = false /\
    length (infoLog (machine_of (run v w fuel))) = 512%nat /\
    presented (machine_of (run v w fuel)) = run_frames v w passes.
Proof.
  intros Hwin Hglad.
  destruct (close_within w fuel) as [(k & Hk & Hle)|Hopen].
  - destruct (run_finishes v w k fuel Hwin Hglad Hk Hle)
      as (m & -> & Hc & Ho & Hov & Hlen & Hp & _).
    exists (S k), (closing_calls v w). cbn [machine_of].
    conjuncts; try done; [by right | lia].
  - destruct (run_runs v w fuel Hwin Hglad Hopen)
      as (m & -> & Hc & Ho & Hov & Hlen & Hp & _).
    exists fuel, []. cbn [machine_of]. rewrite app_nil_r.
    conjuncts; try done. by left.
Qed.

Lemma resize_calls_kind es : Forall (fun c => loop_call c = true) (resize_calls es).
Proof.
  induction es as [|[|a b] es IH]; cbn [resize_calls flat_map app];
    [constructor | exact IH | by constructor].
Qed.

Lemma pass_calls_kind v win p vao f :
  Forall (fun c => loop_call c = true) (pass_calls v win p vao f).
Proof.
  unfold pass_calls. rewrite !Forall_app. split_and!.
  - by repeat constructor.
  - destruct (escape_pressed f); by repeat constructor.
  - destruct v; by repeat constructor.
  - apply resize_calls_kind.
Qed.

Lemma loop_calls_kind v win p vao w i n :
  Forall (fun c => loop_call c = true) (loop_calls v win p vao w i n).
Proof.
  revert i. induction n as [|n IH]; intros i; [constructor|].
  rewrite loop_calls_S. constructor; [done|].
  rewrite Forall_app. split; [apply pass_calls_kind | apply IH].
Qed.

Lemma closing_calls_kind v w :
  Forall (fun c => cleanup_call c = true) (closing_calls v w).
Proof.
  unfold closing_calls, cleanup_calls.
  destruct (EBO_of v w); by repeat constructor.
Qed.




(** ** The two fatal paths *)

Lemma run_no_window v w fuel :
  created_window w = 0 ->
  exists m,
    run v w fuel = Finished (-1) m /\
    calls m = (opening_calls v w ++
               [c_cout ("Failed to create GLFW window" ++ nl);
                c_glfwTerminate])%list /\
    console m = "Failed to create GLFW window" ++ nl /\
    window_state m = None /\
    glfw_initialized m = false /\
    overrun m = false /\ infoLog m = [] /\ presented m = [] /\
    gl m = gl_initial.
Proof.
  intros Hwin%Z.eqb_eq. unfold run, main, opening_calls.
  destruct (apple w) eqn:Ha; exec; rewrite Ha; exec; rewrite Hwin; exec;
    (eexists; split; [reflexivity|]); by repeat split.
Qed.

Lemma run_no_glad v w fuel :
  created_window w <> 0 -> glad_result w = 0 ->
  exists m,
    run v w fuel = Finished (-1) m /\
    calls m = (opening_calls v w ++
               [c_glfwMakeContextCurrent (created_window w);
                c_glfwSetFramebufferSizeCallback (created_window w);
                c_gladLoadGLLoader;
                c_cout ("Failed to initialize GLAD" ++ nl)])%list /\
    console m = "Failed to initialize GLAD" ++ nl /\
    window_state m = Some {| should_close := false; context_current := true;
                             size_callback_set := true |} /\
    glfw_initialized m = glfwInit_ok w /\
    overrun m = false /\ infoLog m = [] /\ presented m = [].
Proof.
  intros Hwin%Z.eqb_neq Hglad%Z.eqb_eq. unfold run, main, opening_calls.
  destruct (apple w) eqn:Ha; exec; rewrite Ha; exec; rewrite Hwin; exec;
    rewrite Hglad; exec;
    (eexists; split; [reflexivity|]); by repeat split.
Qed.

Lemma glfwTerminate_not_opening v w : ~ In c_glfwTerminate (opening_calls v w).
Proof.
  unfold opening_calls. rewrite !in_app_iff. cbn [In].
  destruct (apple w); cbn [In]; intuition discriminate.
Qed.

(** ** What a draw call assembles *)

Lemma register_fresh {A} (n : Z) (x : A) (store : gmap Z A) :
  n <> 0 -> register n x store = <[n := x]> store.
Proof. intros H%Z.eqb_neq. unfold register. by rewrite H. Qed.

Lemma upload_geometry_primitives v w m :
  gen_name w (names_used m) <> 0 ->
  gen_name w (S (names_used m)) <> 0 ->
  (v = Rectangle ->
   gen_name w (S (S (names_used m))) <> 0 /\
   gen_name w (S (S (names_used m))) <> gen_name w (S (names_used m))) ->
  primitives v
    (vertex_arrays (gl (machine_of (upload_geometry v w m))))
    (buffers (gl (machine_of (upload_geometry v w m))))
    (gen_name w (names_used m)) = Some (drawn_triangles v).
Proof.
  intros Hvao Hvbo Hebo.
  destruct m as [? ? ? g ? ? ? ? ? ? n], g. cbn [names_used] in *.
  unfold upload_geometry, primitives, fetch_vertex, element_indices.
  destruct v; exec.
  - rewrite !register_fresh by done.
    repeat (rewrite ?lookup_alter_eq, ?lookup_insert_eq, ?lookup_empty;
            cbn [fmap option_fmap option_map vao_attribs vao_element_buffer
                 at_type at_buffer at_enabled at_size at_stride at_offset]).
    reflexivity.
  - destruct Hebo as [Hebo Hne]; [done|].
    assert (gen_name w (S n) <> gen_name w (S (S n))) as Hne' by congruence.
    rewrite !register_fresh by done.
    repeat (rewrite ?lookup_alter_eq, ?lookup_insert_eq, ?lookup_empty,
              ?(lookup_alter_ne _ _ _ _ Hne), ?(lookup_insert_ne _ _ _ _ Hne),
              ?(lookup_alter_ne _ _ _ _ Hne'), ?(lookup_insert_ne _ _ _ _ Hne');
            cbn [fmap option_fmap option_map vao_attribs vao_element_buffer
                 at_type at_buffer at_enabled at_size at_stride at_offset]).
    reflexivity.
Qed.

(** The render loop starts on the objects the geometry section has just set
    up. *)
Lemma ready_primitives v w :
  names_fresh v w ->
  primitives v (vertex_arrays (gl (ready v w))) (buffers (gl (ready v w)))
    (VAO_of w) = Some (drawn_triangles v).
Proof.
  intros (Hvao & Hvbo & Hebo). unfold ready, startup, VAO_of, VBO_of in *.
  destruct (apple w) eqn:Ha; exec; rewrite Ha; exec;
    (match goal with
     | |- context [compile_shaders w ?M] =>
         destruct (compile_shaders_spec w M)
           as (m1 & -> & _ & _ & _ & _ & Hn1 & _)
     end);
    fields;
    pose proof (upload_geometry_primitives v w m1) as H;
    rewrite Hn1 in H;
    (destruct (upload_geometry v w m1) as [a m2|m2] eqn:E;
     [|destruct (upload_geometry_spec v w m1) as (? & E' & _); congruence]);
    fields; apply H; try assumption;
    intros ->; apply (Hebo _ eq_refl).
Qed.

Lemma length_loop_frames v w g p vao : forall n vp i,
  length (loop_frames v w g p vao vp i n) = n.
Proof.
  induction n as [|n IH]; intros vp i; cbn [loop_frames length];
    [reflexivity | by rewrite IH].
Qed.

Lemma length_run_frames v w n : length (run_frames v w n) = n.
Proof. apply length_loop_frames. Qed.

Lemma loop_frames_pictures v w g p vao : forall n vp i,
  Forall (fun f => exists vp', f = picture v g p vao vp')
    (loop_frames v w g p vao vp i n).
Proof.
  induction n as [|n IH]; intros vp i; cbn [loop_frames];
    [apply List.Forall_nil | apply List.Forall_cons; [eauto | apply IH]].
Qed.


(** What a run has shown, in terms of the triangles drawn. *)
Lemma run_frames_drawn v w n :
  names_fresh v w ->
  Forall (fun f => exists program vp,
            f = [Cleared (0.1, 0.1, 0.15, 1.0)%Q;
                 Drawn program vp (Some (drawn_triangles v))])
    (run_frames v w n).
Proof.
  intros Hf. eapply Forall_impl; [apply loop_frames_pictures|].
  intros f [vp ->]. unfold picture. rewrite (ready_primitives v w Hf). eauto.
Qed.

(** Only resize events move the viewport. *)
Lemma resized_still (es : list WindowEvent) (vp : Rect) :
  (forall width height, ~ In (FramebufferResized width height) es) ->
  resized es vp = vp.
Proof.
  unfold resized. revert vp.
  induction es as [|[|a b] es IH]; intros vp H; cbn [fold_left].
  - reflexivity.
  - apply IH. intros a b Hin. apply (H a b). by right.
  - destruct (H a b). by left.
Qed.


(** ** Bounds on the information log *)




Lemma calm_world_first_close : first_close calm_world 1.
Proof.
  split; [reflexivity|]. intros [|j] Hj; [reflexivity | lia].
Qed.

(** ** What a run does not depend on

    Two things that vary from run to run never reach what a run does: the
    bytes that happen to be in [infoLog] before it is written, and the value
    [glfwInit] returns, which [main] drops.  Runs in two worlds that differ
    in nothing else are compared on machines from which the array and the
    flag GLFW keeps for itself are erased. *)

Lemma blur_inv m m' :
  blur m = blur m' ->
  m' = set_glfw_initialized (glfw_initialized m') (set_infoLog (infoLog m') m).
Proof. destruct m, m'. cbv [blur set_glfw_initialized set_infoLog
  glfw_initialized window_state glad_loaded gl console calls presented
  infoLog overrun tick names_used]. congruence. Qed.

Lemma sim_ret {A} w w' (a : A) : sim w w' (ret a) (ret a).
Proof. intros m m' H. cbn. by rewrite H. Qed.

Lemma sim_bind {A B} w w' (c c' : M A) (k k' : A -> M B) :
  sim w w' c c' -> (forall a, sim w w' (k a) (k' a)) ->
  sim w w' (bind c k) (bind c' k').
Proof.
  intros Hc Hk m m' Hb. unfold bind. specialize (Hc m m' Hb).
  destruct (c w m), (c' w' m'); cbn [blur_outcome] in Hc;
    try discriminate Hc.
  - assert (a = a0 /\ blur m0 = blur m1) as [-> Hm] by (split; congruence).
    by apply Hk.
  - cbn [blur_outcome]. congruence.
Qed.

Section Alike.
Variables w w' : World.
Hypothesis same_apple : apple w' = apple w.
Hypothesis same_created_window : created_window w' = created_window w.
Hypothesis same_initial_framebuffer_size :
  initial_framebuffer_size w' = initial_framebuffer_size w.
Hypothesis same_glad_result : glad_result w' = glad_result w.
Hypothesis same_gen_name : gen_name w' = gen_name w.
Hypothesis same_shader_compile_status :
  shader_compile_status w' = shader_compile_status w.
Hypothesis same_program_link_status :
  program_link_status w' = program_link_status w.
Hypothesis same_shader_info_log : shader_info_log w' = shader_info_log w.
Hypothesis same_program_info_log : program_info_log w' = program_info_log w.
Hypothesis same_frame_input : frame_input w' = frame_input w.

Ltac align :=
  rewrite ?same_apple, ?same_created_window,
    ?same_initial_framebuffer_size, ?same_glad_result, ?same_gen_name,
    ?same_shader_compile_status, ?same_program_link_status,
    ?same_shader_info_log, ?same_program_info_log, ?same_frame_input.

(** A library operation that reads neither the array nor the flag. *)
Ltac sim_prim :=
  let m := fresh "m" in
  let m' := fresh "m'" in
  let Hb := fresh "Hb" in
  intros m m' Hb; apply blur_inv in Hb; rewrite Hb; clear Hb;
  destruct m as [? [[? ? []]|] ? [] ? ? ? ? ? ? ?];
  unfold blur_outcome, blur; exec; align;
  try reflexivity.

Ltac sim_step :=
  first [ apply sim_ret
        | apply sim_bind; [|intros ?]
        | progress sim_prim ].

Lemma sim_ask_bind {B} (k k' : World -> M B) :
  sim w w' (k w) (k' w') -> sim w w' (bind ask k) (bind ask k').
Proof. intros H m m' Hb. apply H, Hb. Qed.

Lemma sim_get_bind {B} (k k' : Machine -> M B) :
  (forall m m', blur m = blur m' -> sim w w' (k m) (k' m')) ->
  sim w w' (bind get k) (bind get k').
Proof. intros H m m' Hb. by apply H. Qed.

(** A step whose result is dropped may return what it likes. *)
Lemma sim_seq {A B} (c c' : M A) (k k' : M B) :
  (forall m m', blur m = blur m' ->
     exists a a' m1 m1',
       c w m = Finished a m1 /\ c' w' m' = Finished a' m1' /\
       blur m1 = blur m1') ->
  sim w w' k k' ->
  sim w w' (bind c (fun _ => k)) (bind c' (fun _ => k')).
Proof.
  intros Hc Hk m m' Hb. unfold bind.
  destruct (Hc m m' Hb) as (a & a' & m1 & m1' & -> & -> & Hb1).
  by apply Hk.
Qed.

Lemma sim_deliver_all win es :
  sim w w' (deliver_all win es) (deliver_all win es).
Proof.
  induction es as [|[|width height] es IH]; cbn [deliver_all].
  - apply sim_ret.
  - apply sim_bind; [sim_prim | intros; apply IH].
  - apply sim_bind; [sim_prim | intros; apply IH].
Qed.

Lemma blur_tick m m' : blur m = blur m' -> tick m' = tick m.
Proof. intros ->%blur_inv. by destruct m. Qed.

Lemma sim_glfwPollEvents : sim w w' glfwPollEvents glfwPollEvents.
Proof.
  unfold glfwPollEvents. apply sim_bind; [sim_prim | intros _].
  apply sim_ask_bind, sim_get_bind. intros m m' Hb.
  rewrite (blur_tick m m' Hb). align.
  apply sim_bind; [apply sim_deliver_all | intros _; sim_prim].
Qed.

Lemma sim_loop_body v win p vao :
  sim w w' (loop_body v win p vao) (loop_body v win p vao).
Proof.
  unfold loop_body.
  apply sim_bind; [|intros _].
  { sim_prim;
      destruct (KeyAction_eqb (escape_key (frame_input w tick0)) GLFW_PRESS);
      reflexivity. }
  do 4 (apply sim_bind; [sim_prim | intros _]).
  apply sim_bind; [destruct v; sim_prim | intros _].
  apply sim_bind; [sim_prim | intros _].
  apply sim_glfwPollEvents.
Qed.

Lemma sim_render_loop v win p vao fuel :
  sim w w' (render_loop fuel v win p vao) (render_loop fuel v win p vao).
Proof.
  induction fuel as [|fuel IH]; cbn [render_loop].
  - intros m m' Hb. cbn. by rewrite Hb.
  - apply sim_bind; [sim_prim | intros [|]]; [apply sim_ret|].
    apply sim_bind; [apply sim_loop_body | intros _; apply IH].
Qed.

Lemma sim_cleanup p vao vbo ebo :
  sim w w' (cleanup p vao vbo ebo) (cleanup p vao vbo ebo).
Proof.
  unfold cleanup.
  do 2 (apply sim_bind; [sim_prim | intros _]).
  apply sim_bind; [destruct ebo; sim_prim | intros _].
  apply sim_bind; [sim_prim | intros _].
  apply sim_bind; [sim_prim | intros _]. apply sim_ret.
Qed.

Lemma sim_upload_geometry v :
  sim w w' (upload_geometry v) (upload_geometry v).
Proof. unfold upload_geometry. destruct v; sim_prim. Qed.

Lemma sim_compile_shaders : sim w w' compile_shaders compile_shaders.
Proof.
  intros m m' Hb. apply blur_inv in Hb. rewrite Hb. clear Hb.
  destruct m as [? ? ? [] ? ? ? ? ? ? n].
  unfold compile_shaders, blur_outcome, blur.
  destruct (shader_compile_status w (gen_name w n) =? 0) eqn:E1,
    (shader_compile_status w (gen_name w (S n)) =? 0) eqn:E2,
    (program_link_status w (gen_name w (S (S n))) =? 0) eqn:E3;
    exec; align; rewrite E1; exec; align; rewrite E2; exec; align;
    rewrite E3; exec; align; buffer_facts; reflexivity.
Qed.

Lemma sim_main v fuel : sim w w' (main v fuel) (main v fuel).
Proof.
  unfold main. apply sim_seq.
  { intros m m' Hb. apply blur_inv in Hb. rewrite Hb.
    destruct m. do 4 eexists. split_and!; reflexivity. }
  do 3 (apply sim_bind; [sim_prim | intros _]).
  apply sim_ask_bind. align.
  apply sim_bind; [destruct (apple w); sim_prim | intros _].
  apply sim_bind; [sim_prim | intros window].
  destruct (window =? 0).
  { do 2 (apply sim_bind; [sim_prim | intros _]). apply sim_ret. }
  do 2 (apply sim_bind; [sim_prim | intros _]).
  apply sim_bind; [sim_prim | intros loaded].
  destruct (loaded =? 0).
  { apply sim_bind; [sim_prim | intros _]. apply sim_ret. }
  apply sim_bind; [apply sim_compile_shaders | intros shaderProgram].
  apply sim_bind; [apply sim_upload_geometry | intros [[VAO VBO] EBO]].
  apply sim_bind; [apply sim_render_loop | intros _].
  apply sim_cleanup.
Qed.
End Alike.

Lemma blur_observable o o' :
  blur_outcome o = blur_outcome o' -> observable o = observable o'.
Proof.
  unfold observable.
  destruct o as [a m|m], o' as [a' m'|m']; cbn [blur_outcome]; intros H;
    try discriminate H.
  - assert (a = a' /\ blur m = blur m') as [-> ->%blur_inv]
      by (split; congruence). by destruct m.
  - assert (blur m = blur m') as ->%blur_inv by congruence. by destruct m.
Qed.

(** ** Plane geometry as linear arithmetic *)

Ltac to_inequalities :=
  unfold in_triangle, inside_triangle, in_quad, on_segment, first_triangle,
    second_triangle, top_right, bottom_right, bottom_left, top_left,
    nonneg, nonpos, positive_, negative_, along, orient, xy;
  cbn [fst snd];
  rewrite ?orb_true_iff, ?andb_true_iff, ?negb_true_iff,
    ?Qle_bool_iff, ?Qeq_bool_iff, <- ?not_true_iff_false, ?Qle_bool_iff.

(** ** The objects the setup sections leave behind *)


Lemma compile_shaders_program w m :
  let vertexShader := gen_name w (names_used m) in
  let fragmentShader := gen_name w (S (names_used m)) in
  let shaderProgram := gen_name w (S (S (names_used m))) in
  let g := gl (machine_of (compile_shaders w m)) in
  vertexShader <> 0 -> fragmentShader <> 0 ->
  vertexShader <> fragmentShader -> shaderProgram <> 0 ->
  programs g !! shaderProgram =
    Some (linked_program w vertexShader fragmentShader shaderProgram) /\
  (forall n, n <> shaderProgram -> programs g !! n = programs (gl m) !! n).
Proof.
  intros vs fs p g Hvs Hfs Hne Hp. subst vs fs p g.
  destruct m as [? ? ? g ? ? ? ? ? ? n]; destruct g.
  cbn [names_used] in *.
  assert (gen_name w (S n) <> gen_name w n) as Hne' by congruence.
  unfold compile_shaders, linked_program.
  destruct (shader_compile_status w (gen_name w n) =? 0) eqn:E1,
    (shader_compile_status w (gen_name w (S n)) =? 0) eqn:E2,
    (program_link_status w (gen_name w (S (S n))) =? 0) eqn:E3;
    exec; rewrite E1; exec; rewrite E2; exec; rewrite E3; exec;
    rewrite !register_fresh by done;
    repeat (rewrite ?alter_insert_eq, ?lookup_insert_eq, ?lookup_empty,
              ?(alter_insert_ne _ _ _ _ _ Hne),
              ?(lookup_insert_ne _ _ _ _ Hne),
              ?(alter_insert_ne _ _ _ _ _ Hne'),
              ?(lookup_insert_ne _ _ _ _ Hne');
            cbn [pr_attached pr_stages pr_status sh_type sh_source sh_status
                 app omap list_omap]);
    (split; [reflexivity|]);
    intros k Hk; by rewrite lookup_insert_ne.
Qed.

(** The program the render loop uses is the one the shader section
    linked. *)
Lemma ready_program v w :
  shader_names_fresh w ->
  programs (gl (ready v w)) !! shaderProgram_of w =
    Some (linked_program w (vertexShader_of w) (fragmentShader_of w)
            (shaderProgram_of w)).
Proof.
  intros (Hvs & Hfs & Hne & Hp).
  unfold ready, startup, vertexShader_of, fragmentShader_of,
    shaderProgram_of in *.
  destruct (apple w) eqn:Ha; exec; rewrite Ha; exec;
    (match goal with
     | |- context [compile_shaders w ?M] =>
         pose proof (compile_shaders_program w M) as H;
         destruct (compile_shaders_spec w M) as (m1 & E & _)
     end);
    rewrite E in H |- *; fields; cbn zeta in H;
    destruct (H Hvs Hfs Hne Hp) as [Hprog _];
    (match goal with
     | |- context [upload_geometry v w ?M] =>
         destruct (upload_geometry_spec v w M)
           as (m2 & -> & _ & _ & _ & _ & _ & _ & _ & Hpr & _)
     end);
    fields; (etransitivity; [|exact Hprog]);
    exact (f_equal (fun s : gmap Z ProgramObj => s !! _) Hpr).
Qed.

(** ** Frames and viewports, pass by pass *)

Lemma loop_frames_lookup v w g p vao : forall n vp i j,
  (j < n)%nat ->
  loop_frames v w g p vao vp i n !! j =
    Some (picture v g p vao (loop_viewport w vp i j)).
Proof.
  induction n as [|n IH]; intros vp i j Hj; [lia|].
  cbn [loop_frames]. destruct j as [|j]; [reflexivity|].
  cbn [loop_viewport]. apply IH. lia.
Qed.

Lemma loop_viewport_last w : forall n vp i,
  loop_viewport w vp i (S n) =
    resized (events (frame_input w (i + n))) (loop_viewport w vp i n).
Proof.
  induction n as [|n IH]; intros vp i.
  - cbn [loop_viewport]. by rewrite Nat.add_0_r.
  - change (loop_viewport w vp i (S (S n)))
      with (loop_viewport w (resized (events (frame_input w i)) vp) (S i) (S n)).
    rewrite IH. cbn [loop_viewport].
    by replace (S i + n)%nat with (i + S n)%nat by lia.
Qed.

Lemma resized_app es es' vp : resized (es ++ es') vp = resized es' (resized es vp).
Proof. apply fold_left_app. Qed.

Lemma resized_closes es vp :
  Forall (fun e => is_close e = true) es -> resized es vp = vp.
Proof.
  intros H. apply resized_still. intros a b Hin.
  rewrite Forall_forall in H. apply list_elem_of_In, H in Hin. discriminate Hin.
Qed.

Lemma resized_last es W H es' vp :
  Forall (fun e => is_close e = true) es' ->
  resized (es ++ FramebufferResized W H :: es') vp = (0, 0, W, H).
Proof.
  intros Hc. rewrite resized_app.
  change (resized (FramebufferResized W H :: es') (resized es vp))
    with (resized es' (0, 0, W, H)).
  by apply resized_closes.
Qed.

(** ** The GL context inside the loop *)

Lemma loop_state_again v p vao a b c d g :
  loop_state v p vao a b (loop_state v p vao c d g) = loop_state v p vao a b g.
Proof. by destruct g. Qed.

Lemma deliver_all_gl win w es : forall m x,
  window_state m = Some x -> size_callback_set x = true ->
  exists m',
    deliver_all win es w m = Finished tt m' /\
    gl m' = set_viewport (resized es (viewport (gl m))) (gl m).
Proof.
  induction es as [|e es IH]; intros m x Hw Hc.
  - exists m. split; [reflexivity|]. by destruct m as [? ? ? g ? ? ? ? ? ? ?], g.
  - destruct m as [? ? ? g ? ? ? ? ? ? ?], g, x; cbn in Hw, Hc; subst.
    cbn [deliver_all]. destruct e as [|width height].
    + unfold bind at 1. exec.
      edestruct IH as (m' & -> & Hg); [reflexivity | reflexivity |].
      exists m'. split; [reflexivity|]. exact Hg.
    + unfold bind at 1. exec.
      edestruct IH as (m' & -> & Hg); [reflexivity | reflexivity |].
      exists m'. split; [reflexivity|]. exact Hg.
Qed.

Lemma loop_body_gl v win p vao w m x :
  window_state m = Some x -> size_callback_set x = true ->
  exists m',
    loop_body v win p vao w m = Finished tt m' /\
    gl m' = loop_state v p vao (viewport (gl m))
              (resized (events (frame_input w (tick m))) (viewport (gl m)))
              (gl m).
Proof.
  intros Hw Hc.
  destruct m as [? ? ? g ? ? ? ? ? t ?], g, x; cbn in Hw, Hc; subst.
  unfold loop_body, loop_state, picture, primitives. fields.
  destruct (KeyAction_eqb (escape_key (frame_input w t)) GLFW_PRESS) eqn:Hk;
    destruct v; exec; rewrite Hk;
    (match goal with
     | |- context [deliver_all ?a ?b ?c ?M] =>
         edestruct (deliver_all_gl a c b M) as (m' & E & Hg);
         [reflexivity | reflexivity |]
     end);
    rewrite E; destruct m'; (eexists; split; [reflexivity|]); exact Hg.
Qed.

Lemma viewport_loop_state v p vao a b g :
  viewport (loop_state v p vao a b g) = b.
Proof. reflexivity. Qed.

Lemma render_loop_pass_gl v win p vao w fuel m :
  looping w win m false ->
  exists m',
    render_loop (S fuel) v win p vao w m = render_loop fuel v win p vao w m' /\
    looping w win m' (closes (frame_input w (tick m))) /\
    tick m' = S (tick m) /\
    gl m' = loop_state v p vao (viewport (gl m))
              (resized (events (frame_input w (tick m))) (viewport (gl m)))
              (gl m).
Proof.
  intros (Hwin & x & Hw & Hc & Hs).
  edestruct (loop_body_spec v win p vao w
               (set_calls (calls m ++ [c_glfwWindowShouldClose win]) m) x)
    as (m' & E & _ & Hw' & Htick & _);
    [| exact Hc | exact Hwin |].
  { destruct m; exact Hw. }
  edestruct (loop_body_gl v win p vao w
               (set_calls (calls m ++ [c_glfwWindowShouldClose win]) m) x)
    as (m'' & E' & Hg); [| exact Hc |].
  { destruct m; exact Hw. }
  assert (m'' = m') as -> by congruence.
  exists m'. split.
  - cbn [render_loop].
    cbv [bind call modify get ret glfwWindowShouldClose] in E |- *.
    cbn [window_state set_calls]. rewrite Hw, Hs, E. reflexivity.
  - destruct m; cbn in *.
    conjuncts; try done.
    split; [exact Hwin|]. eexists. split; [exact Hw'|]. cbn.
    rewrite Hs. by split.
Qed.

(** After one pass or more the context is the one the loop was entered
    with, up to what a pass sets. *)
Lemma render_loop_gl v win p vao w : forall fuel m,
  looping w win m false ->
  (forall j, (j < fuel)%nat -> closes (frame_input w (tick m + j)) = false) ->
  exists m',
    render_loop (S fuel) v win p vao w m = Running m' /\
    gl m' = loop_state v p vao
              (loop_viewport w (viewport (gl m)) (tick m) fuel)
              (loop_viewport w (viewport (gl m)) (tick m) (S fuel))
              (gl m).
Proof.
  induction fuel as [|fuel IH]; intros m Hl Hopen.
  - destruct (render_loop_pass_gl v win p vao w 0 m Hl)
      as (m1 & -> & _ & _ & Hg).
    exists m1. split; [reflexivity|]. exact Hg.
  - destruct (render_loop_pass_gl v win p vao w (S fuel) m Hl)
      as (m1 & -> & Hl1 & Ht1 & Hg1).
    pose proof (Hopen 0%nat ltac:(lia)) as H0.
    rewrite Nat.add_0_r in H0. rewrite H0 in Hl1.
    destruct (IH m1 Hl1) as (m2 & -> & Hg2).
    { intros j Hj. rewrite Ht1. replace (S (tick m) + j)%nat
        with (tick m + S j)%nat by lia. apply Hopen. lia. }
    exists m2. split; [reflexivity|].
    rewrite Hg2, Ht1, Hg1, viewport_loop_state, loop_state_again.
    reflexivity.
Qed.

Lemma run_gl v w n :
  created_window w <> 0 -> glad_result w <> 0 ->
  (forall j, (j < n)%nat -> closes (frame_input w j) = false) ->
  exists m,
    run v w (S n) = Running m /\
    gl m = loop_state v (shaderProgram_of w) (VAO_of w)
             (viewport_before w n) (viewport_before w (S n))
             (gl (ready v w)).
Proof.
  intros Hwin Hglad Hopen.
  rewrite run_ready by assumption.
  destruct (ready_spec v w Hwin)
    as (_ & _ & Hl & Ht & _ & _ & _ & _ & _ & Hv).
  destruct (render_loop_gl v (created_window w) (shaderProgram_of w)
              (VAO_of w) w n (ready v w) Hl)
    as (m1 & E1 & Hg).
  { intros j Hj. rewrite Ht. apply Hopen, Hj. }
  unfold bind. rewrite E1. exists m1. split; [reflexivity|].
  rewrite Hg, Ht, Hv. reflexivity.
Qed.

(** ** Where a call sits in the trace *)

Lemma split_after_prefix {A} (f : A -> bool) (P R before after : list A) c :
  Forall (fun x => f x = false) P -> f c = true ->
  (P ++ R = before ++ c :: after)%list ->
  exists before', before = (P ++ before')%list /\
                  R = (before' ++ c :: after)%list.
Proof.
  intros HP Hc. revert before.
  induction HP as [|x P Hx HP IH]; intros before E.
  - by exists before.
  - destruct before as [|b before]; cbn [app] in E.
    + injection E as -> _. congruence.
    + injection E as -> E. destruct (IH before E) as (before' & -> & ->).
      by exists before'.
Qed.

Lemma not_before_last {A} (t c : A) (L before after : list A) :
  ~ In t L -> c <> t ->
  (L ++ [t] = before ++ c :: after)%list -> ~ In t before.
Proof.
  revert before. induction L as [|x L IH]; intros before Hin Hc E.
  - destruct before as [|b [|b' before]]; cbn [app] in E; [|discriminate..].
    injection E as -> _. done.
  - destruct before as [|b before]; cbn [app] in E; [by intros []|].
    injection E as <- E. intros [->|H].
    + apply Hin. by left.
    + apply (IH before); [|done..]. intros H'. apply Hin. by right.
Qed.

Lemma last_is_last {A} (t : A) (L before after : list A) :
  ~ In t L -> (L ++ [t] = before ++ t :: after)%list -> after = [].
Proof.
  revert before. induction L as [|x L IH]; intros before Hin E.
  - destruct before as [|b [|b' before]]; cbn [app] in E; [|discriminate..].
    by injection E as <-.
  - destruct before as [|b before]; cbn [app] in E.
    + injection E as -> _. destruct Hin. by left.
    + injection E as <- E. apply (IH before); [|done].
      intros H'. apply Hin. by right.
Qed.

Lemma Forall_report_calls (P : Call -> Prop) failed query header log :
  P query -> (forall s, P (c_cout s)) -> (forall s, P (c_cout_infoLog s)) ->
  Forall P (report_calls failed query header log).
Proof.
  intros Hq Hc Hi. unfold report_calls. destruct failed; [|constructor].
  repeat first [apply List.Forall_nil | apply List.Forall_cons]; auto.
Qed.

(** Before the loop the programs neither ask for the window to close nor
    release anything nor shut GLFW down. *)
Lemma startup_calls_early v w :
  Forall (fun c => is_close_request c = false /\ releases c = false /\
                   c <> c_glfwTerminate) (startup_calls v w).
Proof.
  unfold startup_calls, opening_calls, shader_calls, geometry_calls.
  rewrite !Forall_app. split_and!;
    try (apply Forall_report_calls; by repeat split);
    try (destruct (apple w)); try (destruct v);
    repeat first [apply List.Forall_nil | apply List.Forall_cons];
    by repeat split.
Qed.

(** Up to the loader, no call goes to the GL. *)
Lemma opening_calls_no_gl v w :
  Forall (fun c => gl_call c = false)
    (opening_calls v w ++
     [c_glfwMakeContextCurrent (created_window w);
      c_glfwSetFramebufferSizeCallback (created_window w);
      c_gladLoadGLLoader])%list.
Proof.
  unfold opening_calls. rewrite !Forall_app.
  split_and!; try (destruct (apple w));
    repeat first [apply List.Forall_nil | apply List.Forall_cons]; done.
Qed.

Lemma loop_calls_inside v win p vao w i n :
  Forall (fun c => releases c = false /\ c <> c_glfwTerminate)
    (loop_calls v win p vao w i n).
Proof.
  eapply Forall_impl; [apply loop_calls_kind|].
  intros c Hc. split; [by destruct c|]. intros ->. discriminate Hc.
Qed.

(** The cleanup ends with [glfwTerminate] and has it nowhere else. *)
Lemma closing_calls_last v w :
  exists L, closing_calls v w = (L ++ [c_glfwTerminate])%list /\
            ~ In c_glfwTerminate L /\
            Forall (fun c => gl_call c = true \/
                             c = c_glfwWindowShouldClose (created_window w)) L.
Proof.
  unfold closing_calls, cleanup_calls. destruct (EBO_of v w) as [e|].
  - exists [c_glfwWindowShouldClose (created_window w);
            c_glDeleteVertexArrays 1 (VAO_of w); c_glDeleteBuffers 1 (VBO_of w);
            c_glDeleteBuffers 1 e; c_glDeleteProgram (shaderProgram_of w)].
    split_and!; [reflexivity | cbn [In]; intuition discriminate |].
    repeat first [apply List.Forall_nil | apply List.Forall_cons]; auto.
  - exists [c_glfwWindowShouldClose (created_window w);
            c_glDeleteVertexArrays 1 (VAO_of w); c_glDeleteBuffers 1 (VBO_of w);
            c_glDeleteProgram (shaderProgram_of w)].
    split_and!; [reflexivity | cbn [In]; intuition discriminate |].
    repeat first [apply List.Forall_nil | apply List.Forall_cons]; auto.
Qed.

Lemma not_in_Forall {A} (P : A -> Prop) (t : A) (l : list A) :
  Forall P l -> ~ P t -> ~ In t l.
Proof.
  intros H Ht Hin. rewrite Forall_forall in H.
  apply Ht, H, list_elem_of_In, Hin.
Qed.

(** ** Requests to close *)

Lemma filter_resize_calls es : filter is_close_request (resize_calls es) = [].
Proof. induction es as [|[|a b] es IH]; cbn; auto. Qed.







Lemma filter_none {A} (f : A -> bool) (l : list A) :
  Forall (fun x => f x = false) l -> filter f l = [].
Proof.
  induction 1 as [|x l Hx _ IH]; [reflexivity|].
  rewrite filter_cons, IH. destruct (decide (f x)) as [H|H]; [|done].
  rewrite Hx in H. done.
Qed.

(** ** What the fatal paths leave behind *)

Lemma run_no_window_state v w fuel :
  created_window w = 0 ->
  gl (machine_of (run v w fuel)) = gl_initial /\
  names_used (machine_of (run v w fuel)) = 0%nat /\
  glad_loaded (machine_of (run v w fuel)) = false.
Proof.
  intros Hwin%Z.eqb_eq. unfold run, main.
  destruct (apple w) eqn:Ha; exec; rewrite Ha; exec; rewrite Hwin; exec;
    by repeat split.
Qed.

Lemma run_no_glad_state v w fuel :
  created_window w <> 0 -> glad_result w = 0 ->
  gl (machine_of (run v w fuel)) =
    set_viewport (0, 0, fst (initial_framebuffer_size w),
                  snd (initial_framebuffer_size w)) gl_initial /\
  names_used (machine_of (run v w fuel)) = 0%nat /\
  glad_loaded (machine_of (run v w fuel)) = false.
Proof.
  intros Hwin%Z.eqb_neq Hglad%Z.eqb_eq. unfold run, main.
  destruct (apple w) eqn:Ha; exec; rewrite Ha; exec; rewrite Hwin; exec;
    rewrite Hglad; exec; by repeat split.
Qed.

Lemma fatal_calls_no_gl v w fuel :
  created_window w = 0 \/ glad_result w = 0 ->
  Forall (fun c => gl_call c = false) (calls (machine_of (run v w fuel))).
Proof.
  intros H. pose proof (opening_calls_no_gl v w) as Ho.
  rewrite Forall_app in Ho. destruct Ho as [Ho _].
  destruct (decide (created_window w = 0)) as [Hwin|Hwin].
  - destruct (run_no_window v w fuel Hwin) as (m & -> & Hc & _).
    cbn [machine_of]. rewrite Hc, Forall_app. split; [exact Ho|].
    by repeat constructor.
  - destruct H as [H|Hglad]; [done|].
    destruct (run_no_glad v w fuel Hwin Hglad) as (m & -> & Hc & _).
    cbn [machine_of]. rewrite Hc, Forall_app. split; [exact Ho|].
    by repeat constructor.
Qed.

(** The two programs ask for closing in the same passes. *)
Lemma close_requests_of_loop v v' win p vao w : forall n i,
  filter is_close_request (loop_calls v win p vao w i n) =
  filter is_close_request (loop_calls v' win p vao w i n).
Proof.
  induction n as [|n IH]; intros i; [reflexivity|].
  rewrite !loop_calls_S.
  change (filter is_close_request
            (pass_calls v win p vao (frame_input w i) ++
             loop_calls v win p vao w (S i) n)%list =
          filter is_close_request
            (pass_calls v' win p vao (frame_input w i) ++
             loop_calls v' win p vao w (S i) n)%list).
  rewrite !filter_app, IH. f_equal.
  unfold pass_calls. rewrite !filter_app, filter_resize_calls.
  by destruct (escape_pressed (frame_input w i)), v, v'.
Qed.

(** * The claims *)

(** ** Shader diagnostics *)



(** ** Exit status *)

(** C2. [main] returns [-1] when [glfwCreateWindow] returns [NULL] and when
    [gladLoadGLLoader] returns [0]; on both paths the call that failed is
    made once, the message is printed, and nothing else is attempted.  In
    every other run that ends, [main] returns [0], and a run ends as soon as
    there is fuel for the test that follows the first pass in which Escape
    or a close request was seen. *)
Theorem exit_status v w fuel :
  (created_window w = 0 ->
   exists m,
     run v w fuel = Finished (-1) m /\
     calls m = (opening_calls v w ++
                [c_cout ("Failed to create GLFW window" ++ nl);
                 c_glfwTerminate])%list /\
     console m = "Failed to create GLFW window" ++ nl) /\
  (created_window w <> 0 -> glad_result w = 0 ->
   exists m,
     run v w fuel = Finished (-1) m /\
     calls m = (opening_calls v w ++
                [c_glfwMakeContextCurrent (created_window w);
                 c_glfwSetFramebufferSizeCallback (created_window w);
                 c_gladLoadGLLoader;
                 c_cout ("Failed to initialize GLAD" ++ nl)])%list /\
     console m = "Failed to initialize GLAD" ++ nl) /\
  (created_window w <> 0 -> glad_result w <> 0 ->
   (forall status m, run v w fuel = Finished status m -> status = 0) /\
   (forall k, first_close w k -> (k + 2 <= fuel)%nat ->
      exists m, run v w fuel = Finished 0 m)).
Proof.
  split_and!.
  - intros Hwin.
    destruct (run_no_window v w fuel Hwin) as (m & E & Hc & Ho & _). eauto.
  - intros Hwin Hglad.
    destruct (run_no_glad v w fuel Hwin Hglad) as (m & E & Hc & Ho & _).
    eauto.
  - intros Hwin Hglad. split.
    + intros status m E.
      destruct (close_within w fuel) as [(k & Hk & Hle)|Hopen].
      * destruct (run_finishes v w k fuel Hwin Hglad Hk Hle) as (m' & E' & _).
        congruence.
      * destruct (run_runs v w fuel Hwin Hglad Hopen) as (m' & E' & _).
        congruence.
    + intros k Hk Hle.
      destruct (run_finishes v w k fuel Hwin Hglad Hk Hle) as (m' & E' & _).
      eauto.
Qed.

Lemma exit_status_witness :
  (exists m, run Triangle windowless_world 0 = Finished (-1) m) /\
  (exists m, run Triangle loaderless_world 0 = Finished (-1) m) /\
  (exists m, run Triangle calm_world 3 = Finished 0 m).
Proof.
  conjuncts.
  - destruct (exit_status Triangle windowless_world 0) as (H & _ & _).
    destruct H as (m & E & _); [reflexivity|]. exists m. exact E.
  - destruct (exit_status Triangle loaderless_world 0) as (_ & H & _).
    destruct H as (m & E & _); [cbn; lia | reflexivity|]. exists m. exact E.
  - destruct (exit_status Triangle calm_world 3) as (_ & _ & H).
    destruct H as (_ & H); [cbn; lia | cbn; lia|].
    apply (H 1%nat calm_world_first_close). lia.
Defined.

(** ** Escape and the way out of the loop *)

(** C3. Let Escape be down when pass [k] polls the key, no earlier pass
    having seen Escape or a close request.  Then pass [k] itself calls
    [glfwSetWindowShouldClose(window, true)], and when it is over the close
    flag is set; the loop makes no pass after it: the trace is the startup,
    [k + 1] passes, one more test of the flag, and the cleanup, after which
    [main] returns [0] with the program object, the vertex array, the vertex
    buffer and (rectangle) the element buffer all released.  The close flag
    is the only way out: as long as no pass has seen Escape or a close
    request the loop keeps running, and a run that ends has seen one. *)
Theorem escape_ends_the_loop v w :
  created_window w <> 0 -> glad_result w <> 0 ->
  (forall k,
     escape_key (frame_input w k) = GLFW_PRESS ->
     (forall j, (j < k)%nat -> closes (frame_input w j) = false) ->
     (exists m x,
        run v w (S k) = Running m /\
        calls m = run_calls v w (S k) /\
        In (c_glfwSetWindowShouldClose (created_window w) true)
           (pass_calls v (created_window w) (shaderProgram_of w) (VAO_of w)
              (frame_input w k)) /\
        window_state m = Some x /\ should_close x = true) /\
     (forall fuel, (k + 2 <= fuel)%nat ->
        exists m,
          run v w fuel = Finished 0 m /\
          calls m = (run_calls v w (S k) ++ closing_calls v w)%list /\
          length (presented m) = S k /\
          released v w m)) /\
  (forall fuel,
     (forall j, (S j < fuel)%nat -> closes (frame_input w j) = false) ->
     exists m, run v w fuel = Running m) /\
  (forall fuel status m,
     run v w fuel = Finished status m ->
     exists k, (k + 2 <= fuel)%nat /\ closes (frame_input w k) = true).
Proof.
  intros Hwin Hglad. split_and!.
  - intros k Hesc Hopen.
    assert (closes (frame_input w k) = true) as Hclose.
    { unfold closes, escape_pressed. by rewrite Hesc. }
    split.
    + destruct (run_runs v w (S k) Hwin Hglad)
        as (m & E & Hc & _ & _ & _ & _ & (_ & x & Hw & _ & Hs) & _).
      { intros j Hj. apply Hopen. lia. }
      exists m, x. split_and!; try done; [|congruence].
      unfold pass_calls, escape_pressed. rewrite Hesc. cbn. auto.
    + intros fuel Hfuel.
      destruct (run_finishes v w k fuel Hwin Hglad (conj Hclose Hopen) Hfuel)
        as (m & E & Hc & _ & _ & _ & Hp & _ & _ & Hr).
      exists m. split_and!; try done. by rewrite Hp, length_run_frames.
  - intros fuel Hopen.
    destruct (run_runs v w fuel Hwin Hglad Hopen) as (m & E & _). eauto.
  - intros fuel status m E.
    destruct (close_within w fuel) as [(k & [Hk _] & Hle)|Hopen]; [eauto|].
    destruct (run_runs v w fuel Hwin Hglad Hopen) as (m' & E' & _).
    congruence.
Qed.

Lemma escape_ends_the_loop_witness :
  created_window calm_world <> 0 /\ glad_result calm_world <> 0 /\
  exists m,
    run Rectangle calm_world 3 = Finished 0 m /\
    length (presented m) = 2%nat /\
    released Rectangle calm_world m.
Proof.
  assert (created_window calm_world <> 0) as Hwin by (cbn; lia).
  assert (glad_result calm_world <> 0) as Hglad by (cbn; lia).
  split; [exact Hwin|]. split; [exact Hglad|].
  destruct (escape_ends_the_loop Rectangle calm_world Hwin Hglad) as (H & _).
  destruct (H 1%nat) as (_ & H'); [reflexivity | |].
  { intros [|j] Hj; [reflexivity | lia]. }
  destruct (H' 3%nat) as (m & E & _ & Hp & Hr); [lia|].
  exists m. by split_and!.
Defined.

(** ** One pass of the loop *)



(** ** The rectangle *)

(** C5. The vertex array of the rectangle program holds the four corners
    [(0.5, 0.5)], [(0.5, -0.5)], [(-0.5, -0.5)], [(-0.5, 0.5)] and its index
    array is [0, 1, 3, 1, 2, 3].  Assembled as [GL_TRIANGLES] the six indices
    select two triangles.  A point lies in the quad spanned by the corners
    exactly when it lies in one of the two triangles; no point is interior
    to both; and the points the two triangles share are exactly those of the
    diagonal between vertex 1 and vertex 3.  These two triangles are what
    [glDrawElements] assembles from the element buffer and the vertex buffer
    in every frame the program shows, the buffer names [glGenBuffers] gave
    being non-zero and distinct. *)
Theorem rectangle_is_covered :
  vertices Rectangle =
    [ 0.5;  0.5; 0.0;
      0.5; -0.5; 0.0;
     -0.5; -0.5; 0.0;
     -0.5;  0.5; 0.0 ]%Q /\
  indices = [0; 1; 3; 1; 2; 3] /\
  map corner [0; 1; 2; 3] =
    [Some top_right; Some bottom_right; Some bottom_left; Some top_left] /\
  assemble_triangles (map corner indices) =
    Some [first_triangle; second_triangle] /\
  (forall p,
     in_quad top_right bottom_right bottom_left top_left p = true <->
     in_triangle first_triangle p = true \/
     in_triangle second_triangle p = true) /\
  (forall p,
     ~ (inside_triangle first_triangle p = true /\
        inside_triangle second_triangle p = true)) /\
  (forall p,
     in_triangle first_triangle p = true /\
     in_triangle second_triangle p = true <->
     on_segment bottom_right top_left p = true) /\
  (forall w fuel,
     created_window w <> 0 -> glad_result w <> 0 ->
     names_fresh Rectangle w ->
     Forall (fun frame => exists program viewport,
               frame = [Cleared (0.1, 0.1, 0.15, 1.0)%Q;
                        Drawn program viewport
                          (Some [first_triangle; second_triangle])])
       (presented (machine_of (run Rectangle w fuel)))).
Proof.
  split_and!; try reflexivity.
  - intros [x y]. to_inequalities. lra.
  - intros [x y]. to_inequalities. lra.
  - intros [x y]. to_inequalities. lra.
  - intros w fuel Hwin Hglad Hfresh.
    destruct (run_shape Rectangle w fuel Hwin Hglad)
      as (n & tail & _ & _ & _ & _ & _ & _ & ->).
    by apply (run_frames_drawn Rectangle).
Qed.

Lemma rectangle_is_covered_witness :
  created_window calm_world <> 0 /\ glad_result calm_world <> 0 /\
  names_fresh Rectangle calm_world /\
  Forall (fun frame => exists program viewport,
            frame = [Cleared (0.1, 0.1, 0.15, 1.0)%Q;
                     Drawn program viewport
                       (Some [first_triangle; second_triangle])])
    (presented (machine_of (run Rectangle calm_world 3))).
Proof.
  assert (created_window calm_world <> 0) as Hwin by (cbn; lia).
  assert (glad_result calm_world <> 0) as Hglad by (cbn; lia).
  assert (names_fresh Rectangle calm_world) as Hfresh.
  { unfold names_fresh, VAO_of, VBO_of, EBO_of. cbn. split; [lia|].
    split; [lia|]. intros EBO [= <-]. lia. }
  split; [exact Hwin|]. split; [exact Hglad|]. split; [exact Hfresh|].
  destruct rectangle_is_covered as (_ & _ & _ & _ & _ & _ & _ & H).
  exact (H calm_world 3%nat Hwin Hglad Hfresh).
Defined.

(** The centre of the quad is on the diagonal; a point right of it is in the
    first triangle only. *)
Example centre_on_diagonal :
  on_segment bottom_right top_left (0, 0)%Q = true /\
  in_triangle first_triangle (0.25, 0.25)%Q = true /\
  in_triangle second_triangle (0.25, 0.25)%Q = false.
Proof. by vm_compute. Qed.

(** ** The resize responder *)

(** C6. For every pair of dimensions the resize responder finishes, makes the
    one call [glViewport(0, 0, W, H)], and leaves the machine as it was
    except for the viewport, which is now the rectangle at the origin with
    size [(W, H)]: buffers, vertex arrays, shaders, programs, bindings, the
    close flag and the console are untouched.  Nothing of an invocation
    survives the next one: after a second invocation the GL state is what
    that invocation alone would have produced.  While the programs run,
    [glfwPollEvents] hands every resize event to the responder with the
    dimensions of the event. *)
Theorem resize_responder window W H w m :
  (exists m',
     framebuffer_size_callback window W H w m = Finished tt m' /\
     viewport (gl m') = (0, 0, W, H) /\
     m' = set_calls (calls m ++ [c_glViewport 0 0 W H])
            (set_gl (set_viewport (0, 0, W, H) (gl m)) m) /\
     buffers (gl m') = buffers (gl m) /\
     vertex_arrays (gl m') = vertex_arrays (gl m) /\
     forall W' H',
       gl (machine_of (framebuffer_size_callback window W' H' w m')) =
       gl (machine_of (framebuffer_size_callback window W' H' w m))) /\
  (forall x, window_state m = Some x -> size_callback_set x = true ->
     deliver window (FramebufferResized W H) w m =
     framebuffer_size_callback window W H w m).
Proof.
  split.
  - eexists. split; [reflexivity|]. split_and!; try reflexivity.
  - intros x Hw Hc. cbn [deliver]. unfold bind, get. by rewrite Hw, Hc.
Qed.

Lemma resize_responder_witness :
  exists m',
    deliver 7 (FramebufferResized 1024 768) calm_world
      (ready Triangle calm_world) = Finished tt m' /\
    viewport (gl m') = (0, 0, 1024, 768) /\
    buffers (gl m') = buffers (gl (ready Triangle calm_world)).
Proof.
  destruct (resize_responder 7 1024 768 calm_world (ready Triangle calm_world))
    as ((m' & E & Hv & _ & Hb & _) & Hd).
  exists m'. split; [|by split].
  rewrite <- E.
  apply (Hd {| should_close := false; context_current := true;
               size_callback_set := true |});
    [vm_compute; reflexivity | reflexivity].
Defined.

(** ** The information log *)


(** The broken vertex shader comes with a log of 600 characters; the
    console receives the header line, 511 of them, and a newline. *)
Example long_log_is_cut :
  String.length (console (machine_of (run Triangle broken_shader_world 1))) =
  (21 + 511 + 1)%nat.
Proof. vm_compute. reflexivity. Qed.

(** ** Determinism of the triangle program *)



(** ** Teardown on the fatal paths *)

(** C9. When the window cannot be created, [glfwTerminate] is the last call
    before [main] returns [-1]: no window is left and GLFW is shut down.
    When the GL functions cannot be loaded, [main] returns [-1] without any
    call to [glfwTerminate]: the window made a moment earlier still exists,
    and GLFW is left as [glfwInit] set it up, which is initialised whenever
    GLFW is what created the window. *)
Theorem fatal_paths_teardown v w fuel :
  (created_window w = 0 ->
   exists m before,
     run v w fuel = Finished (-1) m /\
     calls m = (before ++ [c_glfwTerminate])%list /\
     window_state m = None /\
     glfw_initialized m = false) /\
  (created_window w <> 0 -> glad_result w = 0 ->
   exists m,
     run v w fuel = Finished (-1) m /\
     ~ In c_glfwTerminate (calls m) /\
     (exists x, window_state m = Some x) /\
     glfw_initialized m = glfwInit_ok w /\
     (glfw_conforming w -> glfw_initialized m = true)).
Proof.
  split.
  - intros Hwin.
    destruct (run_no_window v w fuel Hwin) as (m & E & Hc & _ & Hw & Hi & _).
    exists m, (opening_calls v w ++
               [c_cout ("Failed to create GLFW window" ++ nl)])%list.
    rewrite Hc, <- app_assoc. by split_and!.
  - intros Hwin Hglad.
    destruct (run_no_glad v w fuel Hwin Hglad)
      as (m & E & Hc & _ & Hw & Hi & _).
    exists m. split_and!; [done| |by eauto|done|].
    + rewrite Hc, in_app_iff. intros [H|H].
      * by apply glfwTerminate_not_opening in H.
      * cbn [In] in H. intuition discriminate.
    + intros Hconf. rewrite Hi. unfold glfw_conforming in Hconf.
      destruct (glfwInit_ok w); [done|]. by destruct Hwin, Hconf.
Qed.

Lemma fatal_paths_teardown_witness :
  (exists m, run Rectangle windowless_world 0 = Finished (-1) m /\
             glfw_initialized m = false) /\
  (exists m, run Rectangle loaderless_world 0 = Finished (-1) m /\
             ~ In c_glfwTerminate (calls m) /\
             glfw_initialized m = true).
Proof.
  split.
  - destruct (fatal_paths_teardown Rectangle windowless_world 0) as (H & _).
    destruct H as (m & before & E & _ & _ & Hi); [reflexivity|].
    exists m. by split.
  - destruct (fatal_paths_teardown Rectangle loaderless_world 0) as (_ & H).
    destruct H as (m & E & Hn & _ & _ & Hi); [cbn; lia | reflexivity|].
    exists m. split_and!; [done | done|]. apply Hi. intros H. discriminate H.
Defined.

(** ** The result of glfwInit *)

(** C10. Nothing a run does depends on what [glfwInit] returned: with the
    return value replaced, the run makes the same calls, prints the same
    text, shows the same frames and ends the same way.  Whatever
    [glfwInit] returned, the calls that follow it are the three (on Apple
    four) window hints and [glfwCreateWindow].  A failed initialisation
    comes to light only through that call: when GLFW then refuses to create
    the window, the program reports that the window could not be created
    and returns [-1]. *)
Theorem glfwInit_result_is_dropped v w fuel :
  (forall ok,
     observable (run v (with_glfwInit_ok ok w) fuel) =
     observable (run v w fuel)) /\
  (exists rest,
     calls (machine_of (run v w fuel)) = (opening_calls v w ++ rest)%list) /\
  (glfwInit_ok w = false -> glfw_conforming w ->
   exists m,
     run v w fuel = Finished (-1) m /\
     console m = "Failed to create GLFW window" ++ nl).
Proof.
  split_and!.
  - intros ok. apply blur_observable. unfold run. by apply sim_main.
  - destruct (decide (created_window w = 0)) as [Hwin|Hwin].
    { destruct (run_no_window v w fuel Hwin) as (m & E & Hc & _).
      rewrite E. cbn [machine_of]. rewrite Hc. eauto. }
    destruct (decide (glad_result w = 0)) as [Hglad|Hglad].
    { destruct (run_no_glad v w fuel Hwin Hglad) as (m & E & Hc & _).
      rewrite E. cbn [machine_of]. rewrite Hc. eauto. }
    destruct (run_shape v w fuel Hwin Hglad) as (n & tail & -> & _).
    unfold run_calls, startup_calls. rewrite <- !app_assoc. eauto.
  - intros Hinit Hconf.
    destruct (run_no_window v w fuel (Hconf Hinit)) as (m & E & _ & Ho & _).
    eauto.
Qed.

Lemma glfwInit_result_is_dropped_witness :
  glfwInit_ok windowless_world = false /\
  glfw_conforming windowless_world /\
  (exists m, run Triangle windowless_world 2 = Finished (-1) m /\
             console m = "Failed to create GLFW window" ++ nl) /\
  observable (run Triangle (with_glfwInit_ok false calm_world) 3) =
  observable (run Triangle calm_world 3).
Proof.
  split; [reflexivity|]. split; [intros _; reflexivity|].
  destruct (glfwInit_result_is_dropped Triangle windowless_world 2)
    as (_ & _ & H).
  destruct (glfwInit_result_is_dropped Triangle calm_world 3) as (H' & _).
  split; [|exact (H' false)].
  exact (H eq_refl (fun _ => eq_refl)).
Defined.

(** * Further properties of the programs *)

(** ** The geometry section *)



(** ** The shader section *)

(** X2. Section 4 of [main], started on any machine and given two different
    shader names and a program name by the GL, none of them [0], returns the
    program name and leaves a program object with both shaders attached,
    vertex shader first, linked from the two source strings of the file, with
    the compile and link statuses the driver reported.  This is so whether or
    not a compile or the link failed: no step is skipped after a failure.
    No other program object is changed, and no vertex array or buffer. *)
Theorem shader_section_program w m :
  let vertexShader := gen_name w (names_used m) in
  let fragmentShader := gen_name w (S (names_used m)) in
  let shaderProgram := gen_name w (S (S (names_used m))) in
  let g := gl (machine_of (compile_shaders w m)) in
  vertexShader <> 0 -> fragmentShader <> 0 ->
  vertexShader <> fragmentShader -> shaderProgram <> 0 ->
  status_of (compile_shaders w m) = Some shaderProgram /\
  programs g !! shaderProgram =
    Some {| pr_attached := [vertexShader; fragmentShader];
            pr_stages :=
              [{| sh_type := GL_VERTEX_SHADER;
                  sh_source := vertexShaderSource;
                  sh_status :=
                    Some (shader_compile_status w vertexShader) |};
               {| sh_type := GL_FRAGMENT_SHADER;
                  sh_source := fragmentShaderSource;
                  sh_status :=
                    Some (shader_compile_status w fragmentShader) |}];
            pr_status := Some (program_link_status w shaderProgram) |} /\
  (forall n, n <> shaderProgram -> programs g !! n = programs (gl m) !! n) /\
  vertex_arrays g = vertex_arrays (gl m) /\ buffers g = buffers (gl m).
Proof.
  intros vs fs p g Hvs Hfs Hne Hp.
  destruct (compile_shaders_program w m Hvs Hfs Hne Hp) as (H1 & H2).
  destruct (compile_shaders_spec w m)
    as (m' & E & _ & _ & _ & _ & _ & _ & Hva & Hb & _).
  subst g. rewrite E in *. cbn [machine_of status_of] in *. by conjuncts.
Qed.

Lemma shader_section_program_witness :
  programs (gl (machine_of (compile_shaders broken_shader_world boot))) !! 3 =
    Some {| pr_attached := [1; 2];
            pr_stages :=
              [{| sh_type := GL_VERTEX_SHADER;
                  sh_source := vertexShaderSource; sh_status := Some 0 |};
               {| sh_type := GL_FRAGMENT_SHADER;
                  sh_source := fragmentShaderSource; sh_status := Some 1 |}];
            pr_status := Some 1 |}.
Proof.
  destruct (shader_section_program broken_shader_world boot)
    as (_ & H & _); [cbn; lia | cbn; lia | cbn; lia | cbn; lia |].
  exact H.
Defined.

(** ** What every frame holds *)

(** X3. When the GL hands out fresh names, frame number [j] of a run is
    completely determined: the background colour, then one draw with the
    program linked from the two shader sources, in the viewport left by the
    resize events of the passes before [j], of the triangle of the triangle
    program or the two triangles of the rectangle program. *)
Theorem frames_of_a_run v w fuel j :
  created_window w <> 0 -> glad_result w <> 0 ->
  shader_names_fresh w -> names_fresh v w ->
  (j < length (presented (machine_of (run v w fuel))))%nat ->
  presented (machine_of (run v w fuel)) !! j =
    Some [Cleared (0.1, 0.1, 0.15, 1.0)%Q;
          Drawn (Some (linked_program w (vertexShader_of w)
                         (fragmentShader_of w) (shaderProgram_of w)))
                (viewport_before w j)
                (Some (drawn_triangles v))].
Proof.
  intros Hwin Hglad Hsh Hfresh.
  destruct (run_shape v w fuel Hwin Hglad)
    as (n & tail & _ & _ & _ & _ & _ & _ & ->).
  rewrite length_run_frames. intros Hj.
  unfold run_frames. rewrite loop_frames_lookup by done.
  unfold picture, viewport_before.
  by rewrite (ready_program v w Hsh), (ready_primitives v w Hfresh).
Qed.

Lemma frames_of_a_run_witness :
  presented (machine_of (run Rectangle calm_world 3)) !! 1%nat =
    Some [Cleared (0.1, 0.1, 0.15, 1.0)%Q;
          Drawn (Some (linked_program calm_world 1 2 3)) (0, 0, 640, 480)
                (Some [first_triangle; second_triangle])].
Proof.
  apply (frames_of_a_run Rectangle calm_world 3 1).
  - cbn; lia.
  - cbn; lia.
  - unfold shader_names_fresh. cbn. lia.
  - unfold names_fresh, VAO_of, VBO_of, EBO_of. cbn. split; [lia|].
    split; [lia|]. intros EBO [= <-]. lia.
  - vm_compute. lia.
Defined.

(** ** Resizing and the frame it shows in *)

(** X4. [glfwPollEvents] is the last call of a pass, so a resize never
    changes the frame of the pass that polls it: frame [j] is drawn in the
    viewport as the events of the passes before [j] left it.  The first
    frame is drawn in the whole framebuffer the window was created with; of
    several resize events polled in one pass the last one decides; a pass
    that polls no resize event leaves the viewport alone. *)
Theorem resize_shows_in_the_next_frame v w fuel :
  created_window w <> 0 -> glad_result w <> 0 ->
  (forall j, (j < length (presented (machine_of (run v w fuel))))%nat ->
     exists program primitives,
       presented (machine_of (run v w fuel)) !! j =
         Some [Cleared (0.1, 0.1, 0.15, 1.0)%Q;
               Drawn program (viewport_before w j) primitives]) /\
  viewport_before w 0 =
    (0, 0, fst (initial_framebuffer_size w),
     snd (initial_framebuffer_size w)) /\
  (forall j es W H es',
     events (frame_input w j) = (es ++ FramebufferResized W H :: es')%list ->
     Forall (fun e => e = CloseRequested) es' ->
     viewport_before w (S j) = (0, 0, W, H)) /\
  (forall j,
     Forall (fun e => e = CloseRequested) (events (frame_input w j)) ->
     viewport_before w (S j) = viewport_before w j).
Proof.
  intros Hwin Hglad.
  assert (forall es, Forall (fun e => e = CloseRequested) es ->
                     Forall (fun e => is_close e = true) es) as Hcl.
  { intros es H. eapply Forall_impl; [exact H|]. by intros e ->. }
  split_and!.
  - destruct (run_shape v w fuel Hwin Hglad)
      as (n & tail & _ & _ & _ & _ & _ & _ & ->).
    rewrite length_run_frames. intros j Hj.
    unfold run_frames. rewrite loop_frames_lookup by done.
    unfold picture, viewport_before. eauto.
  - reflexivity.
  - intros j es W H es' E Hes. unfold viewport_before.
    rewrite loop_viewport_last, Nat.add_0_l, E. by apply resized_last, Hcl.
  - intros j Hes. unfold viewport_before.
    rewrite loop_viewport_last, Nat.add_0_l. by apply resized_closes, Hcl.
Qed.

Lemma resize_shows_in_the_next_frame_witness :
  (exists program primitives,
     presented (machine_of (run Triangle calm_world 3)) !! 0%nat =
       Some [Cleared (0.1, 0.1, 0.15, 1.0)%Q;
             Drawn program (0, 0, 800, 600) primitives]) /\
  viewport_before calm_world 1 = (0, 0, 640, 480).
Proof.
  destruct (resize_shows_in_the_next_frame Triangle calm_world 3)
    as (H & _ & H' & _); [cbn; lia | cbn; lia |].
  split.
  - apply (H 0%nat). vm_compute. lia.
  - apply (H' 0%nat [] 640 480 []); [reflexivity | constructor].
Defined.

(** ** What the loop keeps *)

(** X5. While no pass has seen Escape or a close request, the render loop
    is still running after any number of passes, and the GL context is the
    one the loop was entered with except for what a pass sets: the clear
    colour, the program in use, the bound vertex array, the back buffer and
    the viewport.  The loop creates, changes and deletes no shader, program,
    vertex array or buffer, asks the GL for no name, prints nothing and
    leaves [infoLog] alone. *)
Theorem render_loop_keeps_the_objects v w passes :
  created_window w <> 0 -> glad_result w <> 0 ->
  (forall j, (j < passes)%nat -> closes (frame_input w j) = false) ->
  exists m,
    run v w (S passes) = Running m /\
    gl m = loop_state v (shaderProgram_of w) (VAO_of w)
             (viewport_before w passes) (viewport_before w (S passes))
             (gl (ready v w)) /\
    shaders (gl m) = shaders (gl (ready v w)) /\
    programs (gl m) = programs (gl (ready v w)) /\
    vertex_arrays (gl m) = vertex_arrays (gl (ready v w)) /\
    buffers (gl m) = buffers (gl (ready v w)) /\
    current_program (gl m) = shaderProgram_of w /\
    vertex_array_binding (gl m) = VAO_of w /\
    clear_color (gl m) = (0.1, 0.1, 0.15, 1.0)%Q /\
    names_used m = names_used (ready v w) /\
    console m = console (ready v w) /\
    infoLog m = infoLog (ready v w).
Proof.
  intros Hwin Hglad Hopen.
  destruct (run_gl v w passes Hwin Hglad Hopen) as (m & E & Hg).
  exists m. rewrite Hg. conjuncts; try reflexivity; try exact E.
  all: rewrite run_ready in E by assumption.
  all: destruct (ready_spec v w Hwin) as (_ & _ & Hl & Ht & _).
  all: destruct (render_loop_runs v (created_window w) (shaderProgram_of w)
                   (VAO_of w) w (S passes) (ready v w) Hl)
         as (m1 & E1 & _ & _ & _ & _ & _ & Hu);
    [intros j Hj; rewrite Ht; apply Hopen; lia|].
  all: unfold bind in E; rewrite E1 in E; injection E as <-.
  all: by destruct Hu.
Qed.

Lemma render_loop_keeps_the_objects_witness :
  exists m,
    run Triangle calm_world 2 = Running m /\
    buffers (gl m) = buffers (gl (ready Triangle calm_world)) /\
    current_program (gl m) = 3 /\
    viewport (gl m) = (0, 0, 640, 480).
Proof.
  destruct (render_loop_keeps_the_objects Triangle calm_world 1)
    as (m & E & Hg & _ & _ & _ & Hb & Hp & _);
    [cbn; lia | cbn; lia | |].
  { intros [|j] Hj; [reflexivity | lia]. }
  exists m. split; [exact E|]. split; [exact Hb|]. split; [exact Hp|].
  rewrite Hg. reflexivity.
Defined.

(** ** One pass on any machine *)

(** X6. The body of the [while], run on any machine whose window exists and
    has the resize responder registered, finishes.  The close flag is set
    afterwards exactly when it was set before, or Escape was down, or a close
    request was polled: a pass never clears it.  The pass presents exactly
    one frame, drawn from the objects and in the viewport it found, moves on
    to the next input, and changes nothing else but the drawing state of the
    GL. *)
Theorem one_pass_of_the_loop v window shaderProgram VAO w m x :
  window_state m = Some x -> size_callback_set x = true ->
  created_window w = window ->
  exists m',
    loop_body v window shaderProgram VAO w m = Finished tt m' /\
    window_state m' =
      Some {| should_close :=
                should_close x || escape_pressed (frame_input w (tick m)) ||
                existsb is_close (events (frame_input w (tick m)));
              context_current := context_current x;
              size_callback_set := true |} /\
    presented m' =
      (presented m ++
       [[Cleared (0.1, 0.1, 0.15, 1.0)%Q;
         Drawn (programs (gl m) !! shaderProgram) (viewport (gl m))
           (primitives v (vertex_arrays (gl m)) (buffers (gl m)) VAO)]])%list /\
    gl m' = loop_state v shaderProgram VAO (viewport (gl m))
              (resized (events (frame_input w (tick m))) (viewport (gl m)))
              (gl m) /\
    tick m' = S (tick m) /\
    console m' = console m /\ infoLog m' = infoLog m /\
    names_used m' = names_used m /\
    glfw_initialized m' = glfw_initialized m /\
    glad_loaded m' = glad_loaded m.
Proof.
  intros Hw Hc Hwin.
  destruct (loop_body_spec v window shaderProgram VAO w m x Hw Hc Hwin)
    as (m' & E & _ & Hw' & Ht & Hp & _ & Hu).
  destruct (loop_body_gl v window shaderProgram VAO w m x Hw Hc)
    as (m'' & E' & Hg).
  assert (m'' = m') as -> by congruence.
  exists m'. destruct Hu. unfold closes in Hw'. rewrite orb_assoc in Hw'.
  by conjuncts.
Qed.

Lemma one_pass_of_the_loop_witness :
  exists m',
    loop_body Triangle 7 3 4 calm_world (ready Triangle calm_world) =
      Finished tt m' /\
    tick m' = 1%nat /\
    viewport (gl m') = (0, 0, 640, 480).
Proof.
  destruct (one_pass_of_the_loop Triangle 7 3 4 calm_world
              (ready Triangle calm_world)
              {| should_close := false; context_current := true;
                 size_callback_set := true |})
    as (m' & E & _ & _ & Hg & Ht & _);
    [vm_compute; reflexivity | reflexivity | reflexivity |].
  exists m'. split; [exact E|]. split; [exact Ht|].
  rewrite Hg. vm_compute. reflexivity.
Defined.

(** ** Requests to close *)



(** ** The GL is called only while it can be *)

(** X8. Wherever a call to the GL stands in the trace of a run, the window
    was created and the loader succeeded, [glfwMakeContextCurrent] and
    [gladLoadGLLoader] were called before it, and [glfwTerminate] was not.
    When [glfwTerminate] is called, it is the last call of the run. *)
Theorem gl_calls_are_guarded v w fuel before c after :
  calls (machine_of (run v w fuel)) = (before ++ c :: after)%list ->
  (gl_call c = true ->
   created_window w <> 0 /\ glad_result w <> 0 /\
   In (c_glfwMakeContextCurrent (created_window w)) before /\
   In c_gladLoadGLLoader before /\
   ~ In c_glfwTerminate before) /\
  (c = c_glfwTerminate -> after = []).
Proof.
  intros E.
  destruct (decide (created_window w = 0)) as [Hwin|Hwin].
  { destruct (run_no_window v w fuel Hwin) as (m & Em & Hc & _).
    rewrite Em in E. cbn [machine_of] in E. rewrite Hc in E. split.
    - intros Hgl. exfalso.
      assert (In c (opening_calls v w ++
                    [c_cout ("Failed to create GLFW window" ++ nl);
                     c_glfwTerminate])%list) as Hin.
      { rewrite E, in_app_iff. right. by left. }
      rewrite in_app_iff in Hin. destruct Hin as [Hin|Hin].
      + pose proof (opening_calls_no_gl v w) as H.
        rewrite Forall_app in H. destruct H as [H _].
        rewrite Forall_forall in H. apply list_elem_of_In, H in Hin. congruence.
      + cbn [In] in Hin. destruct Hin as [<-|[<-|[]]]; discriminate Hgl.
    - intros ->.
      change [c_cout ("Failed to create GLFW window" ++ nl); c_glfwTerminate]
        with ([c_cout ("Failed to create GLFW window" ++ nl)] ++
              [c_glfwTerminate])%list in E.
      rewrite app_assoc in E.
      apply (last_is_last _ _ _ _) in E; [done|].
      rewrite in_app_iff. intros [H|H].
      + by apply glfwTerminate_not_opening in H.
      + cbn [In] in H. intuition discriminate. }
  destruct (decide (glad_result w = 0)) as [Hglad|Hglad].
  { destruct (run_no_glad v w fuel Hwin Hglad) as (m & Em & Hc & _).
    rewrite Em in E. cbn [machine_of] in E. rewrite Hc in E.
    assert (In c (opening_calls v w ++
                  [c_glfwMakeContextCurrent (created_window w);
                   c_glfwSetFramebufferSizeCallback (created_window w);
                   c_gladLoadGLLoader;
                   c_cout ("Failed to initialize GLAD" ++ nl)])%list) as Hin.
    { rewrite E, in_app_iff. right. by left. }
    rewrite in_app_iff in Hin. split.
    - intros Hgl. exfalso. destruct Hin as [Hin|Hin].
      + pose proof (opening_calls_no_gl v w) as H.
        rewrite Forall_app in H. destruct H as [H _].
        rewrite Forall_forall in H. apply list_elem_of_In, H in Hin. congruence.
      + cbn [In] in Hin. destruct Hin as [<-|[<-|[<-|[<-|[]]]]]; discriminate Hgl.
    - intros ->. exfalso. destruct Hin as [Hin|Hin].
      + by apply glfwTerminate_not_opening in Hin.
      + cbn [In] in Hin. intuition discriminate. }
  destruct (run_shape v w fuel Hwin Hglad) as (n & tail & Hc & Ht & _).
  rewrite Hc in E. unfold run_calls, startup_calls in E.
  pose proof (startup_calls_early v w) as Hs.
  unfold startup_calls in Hs. rewrite !Forall_app in Hs.
  destruct Hs as (Hs1 & Hs2 & Hs3 & Hs4).
  pose proof (loop_calls_inside v (created_window w) (shaderProgram_of w)
                (VAO_of w) w 0 n) as Hloop.
  set (P := (opening_calls v w ++
             [c_glfwMakeContextCurrent (created_window w);
              c_glfwSetFramebufferSizeCallback (created_window w);
              c_gladLoadGLLoader])%list) in *.
  set (R := (shader_calls w 0 ++ geometry_calls v w 3 ++
             loop_calls v (created_window w) (shaderProgram_of w) (VAO_of w)
               w 0 n)%list) in *.
  assert (~ In c_glfwTerminate (P ++ R)) as Hnot.
  { apply (not_in_Forall (fun c => c <> c_glfwTerminate)); [|by intros []].
    subst P R. rewrite !Forall_app. split_and!;
      (eapply Forall_impl; [eassumption|]); cbn; tauto. }
  assert (((P ++ R) ++ tail)%list = (before ++ c :: after)%list) as E'.
  { rewrite <- E. subst P R. by rewrite <- !app_assoc. }
  split.
  - intros Hgl.
    rewrite <- app_assoc in E'.
    destruct (split_after_prefix gl_call P (R ++ tail) before after c
                (opening_calls_no_gl v w) Hgl E') as (b' & -> & E'').
    split_and!; try done.
    + rewrite in_app_iff. left. subst P. rewrite in_app_iff. right. by left.
    + rewrite in_app_iff. left. subst P. rewrite in_app_iff. right.
      right. right. by left.
    + rewrite in_app_iff. intros [H|H].
      * apply Hnot. rewrite in_app_iff. by left.
      * destruct Ht as [->| ->].
        -- apply Hnot. rewrite in_app_iff. right.
           rewrite app_nil_r in E''. rewrite E'', in_app_iff. by left.
        -- destruct (closing_calls_last v w) as (L & EL & HL & _).
           rewrite EL, app_assoc in E''.
           apply (not_before_last _ _ _ _ _) in E''; [done| |].
           ++ rewrite in_app_iff. intros [H'|H']; [|done].
              apply Hnot. rewrite in_app_iff. by right.
           ++ intros ->. discriminate Hgl.
  - intros ->. destruct Ht as [->| ->].
    + exfalso. apply Hnot. rewrite app_nil_r in E'. rewrite E', in_app_iff.
      right. by left.
    + destruct (closing_calls_last v w) as (L & EL & HL & _).
      rewrite EL, app_assoc in E'.
      apply (last_is_last _ _ _ _) in E'; [done|].
      rewrite in_app_iff. tauto.
Qed.

Lemma gl_calls_are_guarded_witness :
  calls (machine_of (run Triangle calm_world 1)) =
    (removelast (calls (machine_of (run Triangle calm_world 1))) ++
     [c_glViewport 0 0 640 480])%list /\
  In c_gladLoadGLLoader
    (removelast (calls (machine_of (run Triangle calm_world 1)))) /\
  ~ In c_glfwTerminate
      (removelast (calls (machine_of (run Triangle calm_world 1)))).
Proof.
  assert (calls (machine_of (run Triangle calm_world 1)) =
            (removelast (calls (machine_of (run Triangle calm_world 1))) ++
             [c_glViewport 0 0 640 480])%list) as E
    by (vm_compute; reflexivity).
  split; [exact E|].
  destruct (gl_calls_are_guarded Triangle calm_world 1
              (removelast (calls (machine_of (run Triangle calm_world 1))))
              (c_glViewport 0 0 640 480) [] E) as (H & _).
  destruct (H eq_refl) as (_ & _ & _ & Hl & Ht). by split.
Defined.

(** ** Nothing follows the cleanup *)

(** X9. Once a run has deleted a vertex array, a buffer or the program, it
    makes no call other than further deletions and [glfwTerminate]: nothing
    is drawn, bound or used after the cleanup began.  A run that deletes any
    of them returns [0]. *)
Theorem nothing_follows_the_cleanup v w fuel before c after :
  calls (machine_of (run v w fuel)) = (before ++ c :: after)%list ->
  releases c = true ->
  Forall (fun c' => releases c' = true \/ c' = c_glfwTerminate) after /\
  status_of (run v w fuel) = Some 0.
Proof.
  intros E Hr.
  assert (gl_call c = true) as Hgl by (by destruct c).
  assert (In c (calls (machine_of (run v w fuel)))) as Hin.
  { rewrite E, in_app_iff. right. by left. }
  destruct (decide (created_window w = 0)) as [Hwin|Hwin].
  { pose proof (fatal_calls_no_gl v w fuel (or_introl Hwin)) as H.
    rewrite Forall_forall in H. apply list_elem_of_In, H in Hin. congruence. }
  destruct (decide (glad_result w = 0)) as [Hglad|Hglad].
  { pose proof (fatal_calls_no_gl v w fuel (or_intror Hglad)) as H.
    rewrite Forall_forall in H. apply list_elem_of_In, H in Hin. congruence. }
  assert (forall n, Forall (fun c => releases c = false) (run_calls v w n))
    as Hrun.
  { intros n. unfold run_calls. rewrite Forall_app. split.
    - eapply Forall_impl; [apply startup_calls_early|]. by intros ? (_ & ? & _).
    - eapply Forall_impl; [apply loop_calls_inside|]. by intros ? [? _]. }
  destruct (close_within w fuel) as [(k & Hk & Hle)|Hopen].
  - destruct (run_finishes v w k fuel Hwin Hglad Hk Hle) as (m & Em & Hc & _).
    rewrite Em in *. cbn [machine_of status_of] in *. split; [|done].
    rewrite Hc in E.
    destruct (split_after_prefix releases _ _ _ _ _ (Hrun (S k)) Hr E)
      as (b' & _ & E').
    assert (Forall (fun c' => releases c' = true \/ c' = c_glfwTerminate)
              (cleanup_calls (shaderProgram_of w) (VAO_of w) (VBO_of w)
                 (EBO_of v w))) as Hcl.
    { unfold cleanup_calls. destruct (EBO_of v w);
        repeat first [apply List.Forall_nil | apply List.Forall_cons]; auto. }
    unfold closing_calls in E'. destruct b' as [|b b']; cbn [app] in E'.
    + injection E' as <- _. discriminate Hr.
    + injection E' as _ E'. rewrite E', Forall_app in Hcl.
      destruct Hcl as [_ Hcl]. by inversion Hcl.
  - destruct (run_runs v w fuel Hwin Hglad Hopen) as (m & Em & Hc & _).
    rewrite Em in *. cbn [machine_of] in *. rewrite Hc in Hin.
    specialize (Hrun fuel). rewrite Forall_forall in Hrun.
    apply list_elem_of_In, Hrun in Hin. congruence.
Qed.

Lemma nothing_follows_the_cleanup_witness :
  calls (machine_of (run Triangle calm_world 3)) =
    (removelast (removelast (calls (machine_of (run Triangle calm_world 3)))) ++
     [c_glDeleteProgram 3; c_glfwTerminate])%list /\
  status_of (run Triangle calm_world 3) = Some 0.
Proof.
  assert (calls (machine_of (run Triangle calm_world 3)) =
            (removelast
               (removelast (calls (machine_of (run Triangle calm_world 3)))) ++
             c_glDeleteProgram 3 :: [c_glfwTerminate])%list) as E
    by (vm_compute; reflexivity).
  split; [exact E|].
  destruct (nothing_follows_the_cleanup Triangle calm_world 3
              (removelast
                 (removelast (calls (machine_of (run Triangle calm_world 3)))))
              (c_glDeleteProgram 3) [c_glfwTerminate] E eq_refl) as (_ & H).
  exact H.
Defined.

(** ** What the fatal paths create *)

(** X10. On both fatal paths the run makes no call to the GL: there is no
    shader, program, vertex array or buffer, the GL was asked for no name,
    no frame was shown, and the loader is not marked as loaded. *)
Theorem fatal_paths_create_nothing v w fuel :
  created_window w = 0 \/ glad_result w = 0 ->
  let m := machine_of (run v w fuel) in
  shaders (gl m) = ∅ /\ programs (gl m) = ∅ /\
  vertex_arrays (gl m) = ∅ /\ buffers (gl m) = ∅ /\
  names_used m = 0%nat /\ presented m = [] /\ glad_loaded m = false /\
  Forall (fun c => gl_call c = false) (calls m).
Proof.
  intros H m. subst m.
  pose proof (fatal_calls_no_gl v w fuel H) as Hc.
  destruct (decide (created_window w = 0)) as [Hwin|Hwin].
  - destruct (run_no_window_state v w fuel Hwin) as (-> & Hn & Hl).
    destruct (run_no_window v w fuel Hwin)
      as (m & E & _ & _ & _ & _ & _ & _ & Hp & _).
    rewrite E in *. cbn [machine_of] in *. by conjuncts.
  - destruct H as [H|Hglad]; [done|].
    destruct (run_no_glad_state v w fuel Hwin Hglad) as (-> & Hn & Hl).
    destruct (run_no_glad v w fuel Hwin Hglad)
      as (m & E & _ & _ & _ & _ & _ & _ & Hp).
    rewrite E in *. cbn [machine_of] in *. by conjuncts.
Qed.

Lemma fatal_paths_create_nothing_witness :
  glad_result loaderless_world = 0 /\
  buffers (gl (machine_of (run Rectangle loaderless_world 5))) = ∅ /\
  names_used (machine_of (run Rectangle loaderless_world 5)) = 0%nat.
Proof.
  split; [reflexivity|].
  destruct (fatal_paths_create_nothing Rectangle loaderless_world 5)
    as (_ & _ & _ & Hb & Hn & _); [right; reflexivity|].
  split; [exact Hb | exact Hn].
Defined.

(** ** The two programs side by side *)

(** X11. In the same world and with the same fuel, the triangle program
    and the rectangle program end the same way, print the same text, show
    the same number of frames and ask for closing in the same passes. *)
Theorem the_two_programs_agree w fuel :
  status_of (run Triangle w fuel) = status_of (run Rectangle w fuel) /\
  console (machine_of (run Triangle w fuel)) =
    console (machine_of (run Rectangle w fuel)) /\
  length (presented (machine_of (run Triangle w fuel))) =
    length (presented (machine_of (run Rectangle w fuel))) /\
  filter is_close_request (calls (machine_of (run Triangle w fuel))) =
    filter is_close_request (calls (machine_of (run Rectangle w fuel))).
Proof.
  destruct (decide (created_window w = 0)) as [Hwin|Hwin].
  { destruct (run_no_window Triangle w fuel Hwin)
      as (m & -> & Hc & Ho & _ & _ & _ & _ & Hp & _).
    destruct (run_no_window Rectangle w fuel Hwin)
      as (m' & -> & Hc' & Ho' & _ & _ & _ & _ & Hp' & _).
    cbn [machine_of status_of]. rewrite Hc, Hc', Ho, Ho', Hp, Hp'.
    unfold opening_calls. rewrite !filter_app.
    split_and!; try reflexivity; by destruct (apple w). }
  destruct (decide (glad_result w = 0)) as [Hglad|Hglad].
  { destruct (run_no_glad Triangle w fuel Hwin Hglad)
      as (m & -> & Hc & Ho & _ & _ & _ & _ & Hp).
    destruct (run_no_glad Rectangle w fuel Hwin Hglad)
      as (m' & -> & Hc' & Ho' & _ & _ & _ & _ & Hp').
    cbn [machine_of status_of]. rewrite Hc, Hc', Ho, Ho', Hp, Hp'.
    unfold opening_calls. rewrite !filter_app.
    split_and!; try reflexivity; by destruct (apple w). }
  assert (forall n tail tail',
            (tail = [] \/ tail = closing_calls Triangle w) ->
            (tail' = [] \/ tail' = closing_calls Rectangle w) ->
            filter is_close_request (run_calls Triangle w n ++ tail)%list =
            filter is_close_request (run_calls Rectangle w n ++ tail')%list)
    as Hf.
  { intros n tail tail' Ht Ht'. unfold run_calls.
    rewrite !filter_app, (filter_none _ (startup_calls Triangle w)),
      (filter_none _ (startup_calls Rectangle w)),
      (filter_none _ tail), (filter_none _ tail'), !app_nil_l, !app_nil_r.
    - apply close_requests_of_loop.
    - destruct Ht' as [->| ->]; [constructor|].
      eapply Forall_impl; [apply closing_calls_kind|]. by intros [].
    - destruct Ht as [->| ->]; [constructor|].
      eapply Forall_impl; [apply closing_calls_kind|]. by intros [].
    - eapply Forall_impl; [apply startup_calls_early|]. by intros c [].
    - eapply Forall_impl; [apply startup_calls_early|]. by intros c []. }
  destruct (close_within w fuel) as [(k & Hk & Hle)|Hopen].
  - destruct (run_finishes Triangle w k fuel Hwin Hglad Hk Hle)
      as (m & -> & Hc & Ho & _ & _ & Hp & _).
    destruct (run_finishes Rectangle w k fuel Hwin Hglad Hk Hle)
      as (m' & -> & Hc' & Ho' & _ & _ & Hp' & _).
    cbn [machine_of status_of].
    rewrite Hc, Hc', Ho, Ho', Hp, Hp', !length_run_frames.
    split_and!; try reflexivity. apply Hf; by right.
  - destruct (run_runs Triangle w fuel Hwin Hglad Hopen)
      as (m & -> & Hc & Ho & _ & _ & Hp & _).
    destruct (run_runs Rectangle w fuel Hwin Hglad Hopen)
      as (m' & -> & Hc' & Ho' & _ & _ & Hp' & _).
    cbn [machine_of status_of].
    rewrite Hc, Hc', Ho, Ho', Hp, Hp', !length_run_frames.
    split_and!; try reflexivity.
    rewrite <- (app_nil_r (run_calls Triangle w fuel)),
      <- (app_nil_r (run_calls Rectangle w fuel)).
    apply Hf; by left.
Qed.

(** ** The array infoLog before it is written *)

